(** * The transportation model of [transportation.py]

    A shallow embedding of the Pyomo script: the index sets, the
    parameters, the variable, the two constraint families and the
    objective are built the way the script builds them, the solver is an
    external function, and the printing after the solve is a trace of
    output events.

    Numbers are exact rationals ([Q]): every value a Python float can hold
    is one, and the rounding of floating-point sums is left out. *)

From Stdlib Require Import QArith Lqa List Lia.
From stdpp Require Import gmap list.

Open Scope Q_scope.

(** ** Python: exceptions, indexing, printing helpers *)

Inductive exn :=
| IndexError          (* list index out of range *)
| KeyError            (* index not in an indexed component *)
| TypeError           (* '%d' % None *)
| ValueError          (* Pyomo: trivial Boolean constraint, value of an uninitialised variable *)
| ApplicationError.   (* the solver could not be run *)

Inductive result (A : Type) :=
| Ok (a : A)
| Raise (e : exn).
Arguments Ok {A} a.
Arguments Raise {A} e.

Module Res.
Definition bind {A B} (r : result A) (k : A -> result B) : result B :=
  match r with
  | Ok a => k a
  | Raise e => Raise e
  end.

(** The elements of a generator are produced left to right; the first
    exception ends the iteration. *)
Fixpoint mapM {A B} (f : A -> result B) (l : list A) : result (list B) :=
  match l with
  | [] => Ok []
  | a :: rest =>
      bind (f a) (fun b => bind (mapM f rest) (fun bs => Ok (b :: bs)))
  end.
End Res.

Declare Scope res_scope.
Delimit Scope res_scope with res.
Notation "x <- r ;; k" := (Res.bind r (fun x => k))
  (at level 100, r at next level, right associativity) : res_scope.

(** [l[i]] for an index produced by [range]: never negative. *)
Definition py_index {A} (l : list A) (i : nat) : result A :=
  match l !! i with
  | Some a => Ok a
  | None => Raise IndexError
  end.

(** [range(n)] *)
Definition range (n : nat) : list nat := seq 0 n.

(** ** Pyomo expressions

    [model.X[f,w]] is a variable object; arithmetic on it builds an
    expression, while arithmetic on two plain numbers is done by Python
    and gives a number. A comparison of two plain numbers is a Python
    bool, not a constraint expression. *)

Inductive expr :=
| Num (q : Q)
| VarX (f w : nat)
| Sum (a b : expr)
| Prod (a b : expr).

Inductive relational :=
| LessEq (lhs rhs : expr)       (* lhs <= rhs *)
| GreaterEq (lhs rhs : expr)    (* lhs >= rhs *)
| PyBool (b : bool).

Definition py_add (a b : expr) : expr :=
  match a, b with
  | Num x, Num y => Num (x + y)
  | _, _ => Sum a b
  end.

Definition py_mul (a b : expr) : expr :=
  match a, b with
  | Num x, Num y => Num (x * y)
  | _, _ => Prod a b
  end.

Definition py_le (a b : expr) : relational :=
  match a, b with
  | Num x, Num y => PyBool (Qle_bool x y)
  | _, _ => LessEq a b
  end.

Definition py_ge (a b : expr) : relational :=
  match a, b with
  | Num x, Num y => PyBool (Qle_bool y x)
  | _, _ => GreaterEq a b
  end.

(** [sum(...)]: starts from 0 and adds the items from the left. *)
Definition py_sum (items : list expr) : expr :=
  fold_left py_add items (Num 0).

(** The value of an expression when the variables have the values [Xa]. *)
Fixpoint eval (Xa : nat -> nat -> Q) (e : expr) : Q :=
  match e with
  | Num q => q
  | VarX f w => Xa f w
  | Sum a b => eval Xa a + eval Xa b
  | Prod a b => eval Xa a * eval Xa b
  end.

Definition holds (Xa : nat -> nat -> Q) (c : relational) : bool :=
  match c with
  | LessEq a b => Qle_bool (eval Xa a) (eval Xa b)
  | GreaterEq a b => Qle_bool (eval Xa b) (eval Xa a)
  | PyBool b => b
  end.

(** ** The model object *)

Inductive domain := NonNegativeReals | Reals.

Definition in_domain (d : domain) (q : Q) : bool :=
  match d with
  | NonNegativeReals => Qle_bool 0 q
  | Reals => true
  end.

Inductive sense := minimize | maximize.

(** Constraints are the keys of the [dual] suffix. *)
Inductive cons_id :=
| CapacityCons_at (f : nat)
| DemandCons_at (w : nat).

Global Instance cons_id_eq_dec : EqDecision cons_id.
Proof. solve_decision. Defined.

Global Instance cons_id_countable : Countable cons_id.
Proof.
  refine (inj_countable'
            (fun c => match c with CapacityCons_at f => inl f | DemandCons_at w => inr w end)
            (fun s => match s with inl f => CapacityCons_at f | inr w => DemandCons_at w end) _).
  intros []; reflexivity.
Defined.

(** An indexed variable: its domain and, per index, the [.value] of the
    variable ([None] until a solution is loaded). *)
Record IndexedVar := {
  var_domain : domain;
  var_value : gmap (nat * nat) (option Q)
}.

Record ConcreteModel := {
  dual : gmap cons_id Q;
  facilities : list nat;
  warehouses : list nat;
  cost : gmap (nat * nat) Q;
  capacity : gmap nat Q;
  demand : gmap nat Q;
  X : IndexedVar;
  CapacityCons : gmap nat relational;
  DemandCons : gmap nat relational;
  OBJ : option (expr * sense)
}.

(** [pe.ConcreteModel()] followed by the empty import suffix. *)
Definition new_model : ConcreteModel :=
  {| dual := ∅; facilities := []; warehouses := []; cost := ∅;
     capacity := ∅; demand := ∅;
     X := {| var_domain := Reals; var_value := ∅ |};
     CapacityCons := ∅; DemandCons := ∅; OBJ := None |}.

Definition set_dual (m : ConcreteModel) (v : gmap cons_id Q) : ConcreteModel :=
  {| dual := v; facilities := facilities m; warehouses := warehouses m;
     cost := cost m; capacity := capacity m; demand := demand m; X := X m;
     CapacityCons := CapacityCons m; DemandCons := DemandCons m; OBJ := OBJ m |}.

Definition set_facilities (m : ConcreteModel) (v : list nat) : ConcreteModel :=
  {| dual := dual m; facilities := v; warehouses := warehouses m;
     cost := cost m; capacity := capacity m; demand := demand m; X := X m;
     CapacityCons := CapacityCons m; DemandCons := DemandCons m; OBJ := OBJ m |}.

Definition set_warehouses (m : ConcreteModel) (v : list nat) : ConcreteModel :=
  {| dual := dual m; facilities := facilities m; warehouses := v;
     cost := cost m; capacity := capacity m; demand := demand m; X := X m;
     CapacityCons := CapacityCons m; DemandCons := DemandCons m; OBJ := OBJ m |}.

Definition set_cost (m : ConcreteModel) (v : gmap (nat * nat) Q) : ConcreteModel :=
  {| dual := dual m; facilities := facilities m; warehouses := warehouses m;
     cost := v; capacity := capacity m; demand := demand m; X := X m;
     CapacityCons := CapacityCons m; DemandCons := DemandCons m; OBJ := OBJ m |}.

Definition set_capacity (m : ConcreteModel) (v : gmap nat Q) : ConcreteModel :=
  {| dual := dual m; facilities := facilities m; warehouses := warehouses m;
     cost := cost m; capacity := v; demand := demand m; X := X m;
     CapacityCons := CapacityCons m; DemandCons := DemandCons m; OBJ := OBJ m |}.

Definition set_demand (m : ConcreteModel) (v : gmap nat Q) : ConcreteModel :=
  {| dual := dual m; facilities := facilities m; warehouses := warehouses m;
     cost := cost m; capacity := capacity m; demand := v; X := X m;
     CapacityCons := CapacityCons m; DemandCons := DemandCons m; OBJ := OBJ m |}.

Definition set_X (m : ConcreteModel) (v : IndexedVar) : ConcreteModel :=
  {| dual := dual m; facilities := facilities m; warehouses := warehouses m;
     cost := cost m; capacity := capacity m; demand := demand m; X := v;
     CapacityCons := CapacityCons m; DemandCons := DemandCons m; OBJ := OBJ m |}.

Definition set_CapacityCons (m : ConcreteModel) (v : gmap nat relational) : ConcreteModel :=
  {| dual := dual m; facilities := facilities m; warehouses := warehouses m;
     cost := cost m; capacity := capacity m; demand := demand m; X := X m;
     CapacityCons := v; DemandCons := DemandCons m; OBJ := OBJ m |}.

Definition set_DemandCons (m : ConcreteModel) (v : gmap nat relational) : ConcreteModel :=
  {| dual := dual m; facilities := facilities m; warehouses := warehouses m;
     cost := cost m; capacity := capacity m; demand := demand m; X := X m;
     CapacityCons := CapacityCons m; DemandCons := v; OBJ := OBJ m |}.

Definition set_OBJ (m : ConcreteModel) (v : expr * sense) : ConcreteModel :=
  {| dual := dual m; facilities := facilities m; warehouses := warehouses m;
     cost := cost m; capacity := capacity m; demand := demand m; X := X m;
     CapacityCons := CapacityCons m; DemandCons := DemandCons m; OBJ := Some v |}.

(** ** Pyomo components *)

(** [component[k]] *)
Definition getitem `{Countable K} {V} (c : gmap K V) (k : K) : result V :=
  match c !! k with
  | Some v => Ok v
  | None => Raise KeyError
  end.

(** The index set of a component over two sets: the first index varies
    slowest. *)
Definition cross (fs ws : list nat) : list (nat * nat) :=
  flat_map (fun f => map (fun w => (f, w)) ws) fs.

(** An indexed component filled by calling [rule] at every index, in the
    order of the index set; an exception of the rule ends the
    construction. *)
Fixpoint indexed `{Countable K} {V} (idx : list K) (rule : K -> result V)
  : result (gmap K V) :=
  match idx with
  | [] => Ok ∅
  | k :: rest =>
      (v <- rule k ;;
       m <- indexed rest rule ;;
       Ok (<[k := v]> m))%res
  end.

(** [pe.Param(index, initialize = f)] *)
Definition Param `{Countable K} (idx : list K) (initialize : K -> result Q)
  : result (gmap K Q) :=
  indexed idx initialize.

(** [pe.Var(index, domain = d)]: no variable has a value yet. *)
Definition Var (idx : list (nat * nat)) (d : domain) : IndexedVar :=
  {| var_domain := d;
     var_value := list_to_map (map (fun k => (k, None)) idx) |}.

(** [pe.Constraint(index, rule = r)]: Pyomo refuses a rule whose result is
    a plain Boolean. *)
Definition Constraint (idx : list nat) (rule : nat -> result relational)
  : result (gmap nat relational) :=
  indexed idx (fun k =>
    (r <- rule k ;;
     match r with
     | PyBool _ => Raise ValueError
     | _ => Ok r
     end)%res).

(** [model.X[f,w]]: the variable object. *)
Definition getitem_X (model : ConcreteModel) (f w : nat) : result expr :=
  match var_value (X model) !! (f, w) with
  | Some _ => Ok (VarX f w)
  | None => Raise KeyError
  end.

(** [model.X[f,w].value] *)
Definition X_value (model : ConcreteModel) (f w : nat) : result (option Q) :=
  getitem (var_value (X model)) (f, w).

(** ** The rules of the script *)

Section Script.

Variable capacities : list Q.
Variable demands : list Q.
Variable costs : list (list Q).

Definition nF : nat := length capacities.
Definition nW : nat := length demands.

Definition cost_func (model : ConcreteModel) (f w : nat) : result Q :=
  (row <- py_index costs f ;; py_index row w)%res.

Definition capacity_rule (model : ConcreteModel) (f : nat) : result relational :=
  (terms <- Res.mapM (fun w => getitem_X model f w) (warehouses model) ;;
   cap <- getitem (capacity model) f ;;
   Ok (py_le (py_sum terms) (Num cap)))%res.

Definition demand_rule (model : ConcreteModel) (w : nat) : result relational :=
  (terms <- Res.mapM (fun f => getitem_X model f w) (facilities model) ;;
   dem <- getitem (demand model) w ;;
   Ok (py_ge (py_sum terms) (Num dem)))%res.

Definition obj_rule (model : ConcreteModel) : result expr :=
  (terms <- Res.mapM
              (fun '(f, w) =>
                 c <- getitem (cost model) (f, w) ;;
                 x <- getitem_X model f w ;;
                 Ok (py_mul (Num c) x))
              (cross (facilities model) (warehouses model)) ;;
   Ok (py_sum terms))%res.

End Script.

(** ** The solver and what the script prints *)

Inductive SolverStatus := ok | warning | error | aborted | unknown.

Inductive TerminationCondition :=
| optimal
| infeasible
| unbounded
| infeasibleOrUnbounded
| other.

(** What one call of the external solver gives back: the two fields of
    [results.solver] the script prints, and the solution that Pyomo loads
    into the model (variable values, and the duals asked for by the
    import suffix). *)
Record SolverResults := {
  status : SolverStatus;
  termination_condition : TerminationCondition;
  variable_values : gmap (nat * nat) Q;
  dual_values : gmap cons_id Q
}.

Inductive component := the_facilities | the_cost | the_CapacityCons | the_OBJ.

Inductive event :=
| Pprint (c : component)                        (* model.<c>.pprint() *)
| SolverCall                                    (* solver.solve(model, ...) *)
| PrintBlank                                    (* print() *)
| PrintStatus (s : SolverStatus)
| PrintTermination (t : TerminationCondition)
| PrintValue (v : option Q)                     (* print(model.X[0,1].value) *)
| PrintTransport (units : Z) (f w : nat)
| PrintDual (c : cons_id) (d : Q)
| PrintObjective (v : Q).

(** A run of script code: what it has printed or called so far, and how it
    ended. *)
Definition Run (A : Type) : Type := list event * result A.

Module Run.
Definition ret {A} (a : A) : Run A := ([], Ok a).

Definition bind {A B} (r : Run A) (k : A -> Run B) : Run B :=
  match r with
  | (t, Ok a) => let '(t', b) := k a in (t ++ t', b)
  | (t, Raise e) => (t, Raise e)
  end.

Definition emit (e : event) : Run unit := ([e], Ok tt).

Definition lift {A} (r : result A) : Run A := ([], r).

(** [for x in l: body x] *)
Fixpoint for_each {A} (l : list A) (body : A -> Run unit) : Run unit :=
  match l with
  | [] => ret tt
  | a :: rest => bind (body a) (fun _ => for_each rest body)
  end.
End Run.

Declare Scope run_scope.
Delimit Scope run_scope with run.
Notation "x <- r ;; k" := (Run.bind r (fun x => k))
  (at level 100, r at next level, right associativity) : run_scope.
Notation "r ;;; k" := (Run.bind r (fun _ => k))
  (at level 100, right associativity) : run_scope.

(** [value != 0] where [value] is a number or [None]. *)
Definition py_ne_zero (v : option Q) : bool :=
  match v with
  | None => true
  | Some q => negb (Qeq_bool q 0)
  end.

(** The integer part of a number, as ['%d'] prints it. *)
Definition truncate (q : Q) : Z := Z.quot (Qnum q) (Z.pos (Qden q)).

(** ['%d' % value]: a number is cut to its integer part, [None] is a
    [TypeError]. *)
Definition format_d (v : option Q) : result Z :=
  match v with
  | None => Raise TypeError
  | Some q => Ok (truncate q)
  end.

(** The value of an expression from the [.value] of the variables; Pyomo
    raises [ValueError] at a variable without a value. The arithmetic here
    is exact: Python rounds every operation to a double, so this is the
    number [model.OBJ()] returns only up to that rounding. *)
Fixpoint value (model : ConcreteModel) (e : expr) : result Q :=
  match e with
  | Num q => Ok q
  | VarX f w =>
      match var_value (X model) !! (f, w) with
      | Some (Some q) => Ok q
      | Some None => Raise ValueError
      | None => Raise KeyError
      end
  | Sum a b => (x <- value model a ;; y <- value model b ;; Ok (x + y))%res
  | Prod a b => (x <- value model a ;; y <- value model b ;; Ok (x * y))%res
  end.

(** [model.OBJ()] *)
Definition OBJ_call (model : ConcreteModel) : result Q :=
  match OBJ model with
  | Some (e, _) => value model e
  | None => Raise KeyError
  end.

(** Loading a solution: every variable of the model takes the value the
    solver gave it ([None] when it gave none), and the suffix takes the
    duals. *)
Definition load (model : ConcreteModel) (results : SolverResults) : ConcreteModel :=
  set_dual
    (set_X model
       {| var_domain := var_domain (X model);
          var_value := map_imap (fun k _ => Some (variable_values results !! k))
                                (var_value (X model)) |})
    (dual_values results).

Section Program.

Variable capacities : list Q.
Variable demands : list Q.
Variable costs : list (list Q).

(** Lines 15 to 104: the model is built attribute by attribute. *)
Definition build : Run ConcreteModel :=
  (let model := new_model in
   let model := set_facilities model (range (nF capacities)) in
   let model := set_warehouses model (range (nW demands)) in
   Run.emit (Pprint the_facilities) ;;;
   c <- Run.lift (Param (cross (facilities model) (warehouses model))
                    (fun '(f, w) => cost_func costs model f w)) ;;
   let model := set_cost model c in
   Run.emit (Pprint the_cost) ;;;
   c <- Run.lift (Param (facilities model) (fun f => py_index capacities f)) ;;
   let model := set_capacity model c in
   c <- Run.lift (Param (warehouses model) (fun w => py_index demands w)) ;;
   let model := set_demand model c in
   let model := set_X model (Var (cross (facilities model) (warehouses model))
                                 NonNegativeReals) in
   c <- Run.lift (Constraint (facilities model) (capacity_rule model)) ;;
   let model := set_CapacityCons model c in
   Run.emit (Pprint the_CapacityCons) ;;;
   c <- Run.lift (Constraint (warehouses model) (demand_rule model)) ;;
   let model := set_DemandCons model c in
   e <- Run.lift (obj_rule model) ;;
   let model := set_OBJ model (e, minimize) in
   Run.emit (Pprint the_OBJ) ;;;
   Run.ret model)%run.

(** Lines 129 to 132. *)
Definition print_shipments (model : ConcreteModel) : Run unit :=
  Run.for_each (facilities model) (fun f =>
    Run.for_each (warehouses model) (fun w =>
      (v <- Run.lift (X_value model f w) ;;
       if py_ne_zero v
       then (units <- Run.lift (format_d v) ;;
             Run.emit (PrintTransport units f w))
       else Run.ret tt)%run)).

(** Lines 136 and 137. *)
Definition print_duals (model : ConcreteModel) : Run unit :=
  Run.for_each (facilities model) (fun f =>
    (_ <- Run.lift (getitem (CapacityCons model) f) ;;
     d <- Run.lift (getitem (dual model) (CapacityCons_at f)) ;;
     Run.emit (PrintDual (CapacityCons_at f) d))%run).

(** Lines 125 to 141, on the model with the solution loaded. *)
Definition post_processing (model : ConcreteModel) : Run unit :=
  (v <- Run.lift (X_value model 0 1) ;;
   Run.emit (PrintValue v) ;;;
   Run.emit PrintBlank ;;;
   print_shipments model ;;;
   Run.emit PrintBlank ;;;
   print_duals model ;;;
   obj <- Run.lift (OBJ_call model) ;;
   Run.emit (PrintObjective obj))%run.

Variable solve : ConcreteModel -> result SolverResults.

(** The whole script. *)
Definition script : Run unit :=
  (model <- build ;;
   Run.emit SolverCall ;;;
   results <- Run.lift (solve model) ;;
   let model := load model results in
   Run.emit PrintBlank ;;;
   Run.emit (PrintStatus (status results)) ;;;
   Run.emit (PrintTermination (termination_condition results)) ;;;
   post_processing model)%run.

End Program.

(** ** The instance written in the script *)

Definition capacities : list Q := [2; 3; 3].
Definition demands : list Q := [4; 4].
Definition costs : list (list Q) := [[1; 2]; [2; 2]; [2; 3]].

(** ** What the built model means *)

(** [Xa] satisfies the model: every variable lies in its domain and every
    constraint of the two families holds. *)
Definition feasible (model : ConcreteModel) (Xa : nat -> nat -> Q) : bool :=
  forallb (fun kv => in_domain (var_domain (X model)) (Xa (fst (fst kv)) (snd (fst kv))))
          (map_to_list (var_value (X model)))
  && forallb (fun kc => holds Xa (snd kc)) (map_to_list (CapacityCons model))
  && forallb (fun kc => holds Xa (snd kc)) (map_to_list (DemandCons model)).

(** The sum of [g i] for [i] in [0..n-1], as the formulation writes it. *)
Fixpoint sigma (n : nat) (g : nat -> Q) : Q :=
  match n with
  | O => 0
  | S k => sigma k g + g k
  end.

(** The sum of a list of numbers. *)
Definition total (l : list Q) : Q := fold_right Qplus 0 l.

(** ** Vocabulary of the statements *)

(** cost[f][w], read from the matrix. *)
Definition cost_at (costs : list (list Q)) (f w : nat) : Q :=
  nth w (nth f costs []) 0.

(** The model that a successful [build] returns, field by field. *)
Record Built (capacities demands : list Q) (costs : list (list Q))
             (model : ConcreteModel) : Prop := {
  built_facilities : facilities model = range (nF capacities);
  built_warehouses : warehouses model = range (nW demands);
  built_costs : forall f w, (f < nF capacities)%nat -> (w < nW demands)%nat ->
      (exists row, costs !! f = Some row /\ row !! w = Some (cost_at costs f w))
      /\ cost model !! (f, w) = Some (cost_at costs f w);
  built_capacity : forall f, (f < nF capacities)%nat ->
      capacity model !! f = Some (nth f capacities 0);
  built_demand : forall w, (w < nW demands)%nat ->
      demand model !! w = Some (nth w demands 0);
  built_domain : var_domain (X model) = NonNegativeReals;
  built_X : forall f w,
      var_value (X model) !! (f, w)
      = if decide ((f < nF capacities)%nat /\ (w < nW demands)%nat)
        then Some None else None;
  built_dual : dual model = ∅;
  built_nonempty : (0 < nF capacities)%nat <-> (0 < nW demands)%nat;
  built_CapacityCons : forall f,
      CapacityCons model !! f
      = if decide (f < nF capacities)%nat
        then Some (LessEq (py_sum (map (VarX f) (range (nW demands))))
                          (Num (nth f capacities 0)))
        else None;
  built_DemandCons : forall w,
      DemandCons model !! w
      = if decide (w < nW demands)%nat
        then Some (GreaterEq (py_sum (map (fun f => VarX f w) (range (nF capacities))))
                             (Num (nth w demands 0)))
        else None;
  built_OBJ :
      OBJ model
      = Some (py_sum (map (fun fw => Prod (Num (cost_at costs (fst fw) (snd fw)))
                                          (VarX (fst fw) (snd fw)))
                          (cross (range (nF capacities)) (range (nW demands)))),
              minimize)
}.

(** What a successful [build] has printed. *)
Definition build_trace : list event :=
  [Pprint the_facilities; Pprint the_cost; Pprint the_CapacityCons; Pprint the_OBJ].

(** The cost of a shipment plan, as the formulation writes it: the sum
    over all f and w of cost[f][w] * X[f,w]. *)
Definition total_cost (costs : list (list Q)) (n_f n_w : nat) (Xa : nat -> nat -> Q) : Q :=
  sigma n_f (fun f => sigma n_w (fun w => cost_at costs f w * Xa f w)).

(** Every variable of the expression satisfies [P]. *)
Fixpoint vars_in (P : nat -> nat -> Prop) (e : expr) : Prop :=
  match e with
  | Num _ => True
  | VarX f w => P f w
  | Sum a b => vars_in P a /\ vars_in P b
  | Prod a b => vars_in P a /\ vars_in P b
  end.

(** The solution as a plan: the value loaded into [X[f,w]] (0 where the
    solver gave none), and likewise a dual. *)
Definition X_of (results : SolverResults) (f w : nat) : Q :=
  default 0 (variable_values results !! (f, w)).

Definition dual_of (results : SolverResults) (c : cons_id) : Q :=
  default 0 (dual_values results !! c).

(** The solver gave every variable a value. *)
Definition all_values (results : SolverResults) (n_f n_w : nat) : Prop :=
  forall f w, (f < n_f)%nat -> (w < n_w)%nat ->
              is_Some (variable_values results !! (f, w)).

(** The solver gave every capacity constraint a dual. *)
Definition capacity_duals (results : SolverResults) (n_f : nat) : Prop :=
  forall f, (f < n_f)%nat -> is_Some (dual_values results !! CapacityCons_at f).

(** The line of the pair (f,w), if any. *)
Definition shipment_line (Xa : nat -> nat -> Q) (f w : nat) : list event :=
  if Qeq_bool (Xa f w) 0 then [] else [PrintTransport (truncate (Xa f w)) f w].

(** The lines of all pairs, in the order of the two loops. *)
Definition shipment_lines (Xa : nat -> nat -> Q) (n_f n_w : nat) : list event :=
  flat_map (fun f => flat_map (fun w => shipment_line Xa f w) (range n_w)) (range n_f).

(** One line per capacity constraint. *)
Definition dual_lines (d : cons_id -> Q) (n_f : nat) : list event :=
  map (fun f => PrintDual (CapacityCons_at f) (d (CapacityCons_at f))) (range n_f).

(** The model built from the data written in the script. *)
Definition hardcoded_model : ConcreteModel :=
  match snd (build capacities demands costs) with
  | Ok m => m
  | Raise _ => new_model
  end.

(** The plan X[0,0]=2, X[1,1]=3, X[2,0]=2, X[2,1]=1. *)
Definition stated_flow (f w : nat) : Q :=
  match f, w with
  | 0%nat, 0%nat => 2
  | 1%nat, 1%nat => 3
  | 2%nat, 0%nat => 2
  | 2%nat, 1%nat => 1
  | _, _ => 0
  end.

(** The value of the objective at a plan. *)
Definition objective_value (model : ConcreteModel) (Xa : nat -> nat -> Q) : Q :=
  match OBJ model with
  | Some (e, _) => eval Xa e
  | None => 0
  end.

(** [v] is the least objective value over the feasible plans, and some
    feasible plan has it. *)
Definition is_minimum (model : ConcreteModel) (v : Q) : Prop :=
  (exists Xa, feasible model Xa = true /\ objective_value model Xa == v)
  /\ (forall Xa, feasible model Xa = true -> v <= objective_value model Xa).

(** Solvers for the examples: one that always answers with an optimal
    solution of the instance of the script, one that always reports an
    infeasible problem and loads nothing. *)
Definition reference_results : SolverResults :=
  {| status := ok;
     termination_condition := optimal;
     variable_values :=
       list_to_map [((0, 0)%nat, 2); ((0, 1)%nat, 0); ((1, 0)%nat, 0);
                    ((1, 1)%nat, 3); ((2, 0)%nat, 2); ((2, 1)%nat, 1)];
     dual_values :=
       list_to_map [(CapacityCons_at 0, -1); (CapacityCons_at 1, -1);
                    (CapacityCons_at 2, 0); (DemandCons_at 0, 2); (DemandCons_at 1, 3)] |}.

Definition reference_solver (model : ConcreteModel) : result SolverResults :=
  Ok reference_results.

Definition infeasible_results : SolverResults :=
  {| status := warning;
     termination_condition := infeasible;
     variable_values := ∅;
     dual_values := ∅ |}.

Definition infeasible_solver (model : ConcreteModel) : result SolverResults :=
  Ok infeasible_results.

Definition short_costs : list (list Q) := [[1; 2]; [2; 2]].


(** A cost matrix with one row more than there are facilities. *)
Definition surplus_rows : list (list Q) := [[1; 2]; [2; 2]; [2; 3]; [9; 9]].

(** ** Vocabulary of the further properties *)

(** The cost matrix has an entry at every pair the model uses. *)
Definition has_entries (costs : list (list Q)) (n_f n_w : nat) : Prop :=
  forall f w, (f < n_f)%nat -> (w < n_w)%nat ->
              exists row, costs !! f = Some row /\ is_Some (row !! w).

(** Three facilities and a single warehouse. *)
Definition single_demand : list Q := [4].
Definition single_costs : list (list Q) := [[1]; [2]; [2]].

(** The model built from them. *)
Definition single_model : ConcreteModel :=
  match snd (build capacities single_demand single_costs) with
  | Ok m => m
  | Raise _ => new_model
  end.


(** costs[f][w] when the matrix has it. *)
Definition entry (costs : list (list Q)) (f w : nat) : option Q :=
  match costs !! f with
  | Some row => row !! w
  | None => None
  end.

(** Facilities without any warehouse. *)
Definition no_demand : list Q := [].

(** A cost matrix with a row and a column more than the instance uses. *)
Definition surplus_costs : list (list Q) :=
  [[1; 2; 7]; [2; 2; 7]; [2; 3; 7]; [9; 9; 9]].


(** The event is the call of the solver. *)
Definition is_SolverCall (e : event) : bool :=
  match e with
  | SolverCall => true
  | _ => false
  end.

(** The plan that serves every demand from the facilities in proportion to
    their capacities (nothing is shipped when there is no capacity). *)
Definition proportional_plan (capacities demands : list Q) (f w : nat) : Q :=
  if Qeq_bool (total capacities) 0 then 0
  else nth f capacities 0 * nth w demands 0 / total capacities.

(** An answer that leaves X[1,0] without a value. *)
Definition partial_results : SolverResults :=
  {| status := ok;
     termination_condition := optimal;
     variable_values :=
       list_to_map [((0, 0)%nat, 2); ((0, 1)%nat, 0); ((1, 1)%nat, 3);
                    ((2, 0)%nat, 2); ((2, 1)%nat, 1)];
     dual_values := dual_values reference_results |}.

Definition partial_solver (model : ConcreteModel) : result SolverResults :=
  Ok partial_results.

(** An answer with all the values and the dual of the first capacity
    constraint only. *)
Definition one_dual_results : SolverResults :=
  {| status := ok;
     termination_condition := optimal;
     variable_values := variable_values reference_results;
     dual_values := list_to_map [(CapacityCons_at 0, -1)] |}.

Definition one_dual_solver (model : ConcreteModel) : result SolverResults :=
  Ok one_dual_results.

(** An answer that ships half a unit from facility 0 to warehouse 1. *)
Definition fractional_results : SolverResults :=
  {| status := ok;
     termination_condition := optimal;
     variable_values :=
       list_to_map [((0, 0)%nat, 1.5); ((0, 1)%nat, 0.5); ((1, 0)%nat, 0);
                    ((1, 1)%nat, 3); ((2, 0)%nat, 2.5); ((2, 1)%nat, 0.5)];
     dual_values := dual_values reference_results |}.

Definition fractional_solver (model : ConcreteModel) : result SolverResults :=
  Ok fractional_results.


(** The model as [build] has it when it reaches the constraints: the sets,
    the three parameters and the variable. *)
Definition model_before_constraints (capacities demands : list Q)
    (c_cost : gmap (nat * nat) Q) (c_cap c_dem : gmap nat Q) : ConcreteModel :=
  set_X
    (set_demand
       (set_capacity
          (set_cost
             (set_warehouses (set_facilities new_model (range (nF capacities)))
                (range (nW demands)))
             c_cost)
          c_cap)
       c_dem)
    (Var (cross (range (nF capacities)) (range (nW demands))) NonNegativeReals).





(** A complete answer for the single warehouse: facilities 0 and 1 ship 2
    each. *)
Definition single_results : SolverResults :=
  {| status := ok;
     termination_condition := optimal;
     variable_values :=
       list_to_map [((0, 0)%nat, 2); ((1, 0)%nat, 2); ((2, 0)%nat, 0)];
     dual_values :=
       list_to_map [(CapacityCons_at 0, -1); (CapacityCons_at 1, 0);
                    (CapacityCons_at 2, 0); (DemandCons_at 0, 2)] |}.

Definition single_solver (model : ConcreteModel) : result SolverResults :=
  Ok single_results.

(** * Properties *)

(** ** Indexed components *)

Section Indexed.
Context `{Countable K} {V : Type}.
Implicit Types (idx : list K) (rule : K -> result V) (m : gmap K V).

Lemma indexed_lookup_in idx rule m k :
  indexed idx rule = Ok m -> k ∈ idx ->
  exists v, rule k = Ok v /\ m !! k = Some v.
Proof.
  revert m. induction idx as [|a rest IH]; intros m Hm Hin.
  - inversion Hin.
  - cbn in Hm. destruct (rule a) as [v|] eqn:Ha; [|discriminate].
    cbn in Hm. destruct (indexed rest rule) as [m'|] eqn:Hr; [|discriminate].
    cbn in Hm. injection Hm as <-.
    destruct (decide (a = k)) as [->|Hne].
    + exists v. split; [assumption|]. apply lookup_insert_eq.
    + apply elem_of_cons in Hin as [->|Hin]; [congruence|].
      destruct (IH m' eq_refl Hin) as (v' & Hv' & Hl).
      exists v'. split; [assumption|]. rewrite lookup_insert_ne; assumption.
Qed.

Lemma indexed_lookup_notin idx rule m k :
  indexed idx rule = Ok m -> k ∉ idx -> m !! k = None.
Proof.
  revert m. induction idx as [|a rest IH]; intros m Hm Hin.
  - cbn in Hm. injection Hm as <-. apply lookup_empty.
  - cbn in Hm. destruct (rule a) as [v|] eqn:Ha; [|discriminate].
    cbn in Hm. destruct (indexed rest rule) as [m'|] eqn:Hr; [|discriminate].
    cbn in Hm. injection Hm as <-.
    apply not_elem_of_cons in Hin as [Hne Hin].
    rewrite lookup_insert_ne; [|congruence]. apply IH; [reflexivity|assumption].
Qed.

(** When a rule can only fail with [e] and fails somewhere on the index
    set, the construction fails with [e]. *)
Lemma indexed_raise idx rule e k :
  (forall j, j ∈ idx -> rule j = Raise e \/ exists v, rule j = Ok v) ->
  k ∈ idx -> rule k = Raise e ->
  indexed idx rule = Raise e.
Proof.
  induction idx as [|a rest IH]; intros Hall Hin Hk.
  - inversion Hin.
  - cbn. destruct (Hall a) as [Ha|[v Ha]]; [left| |]; rewrite Ha; cbn; [reflexivity|].
    destruct (decide (a = k)) as [->|Hne]; [congruence|].
    apply elem_of_cons in Hin as [->|Hin]; [congruence|].
    rewrite IH; [reflexivity| |assumption|assumption].
    intros j Hj. apply Hall. right. assumption.
Qed.
End Indexed.

(** ** Sums of expressions *)

Lemma eval_py_add Xa a b : eval Xa (py_add a b) = eval Xa a + eval Xa b.
Proof. destruct a, b; reflexivity. Qed.

Lemma eval_fold_py_add Xa items acc :
  eval Xa (fold_left py_add items acc)
  = fold_left (fun q e => q + eval Xa e) items (eval Xa acc).
Proof.
  revert acc. induction items as [|e rest IH]; intros acc; [reflexivity|].
  cbn [fold_left]. rewrite IH, eval_py_add. reflexivity.
Qed.

(** A Python [sum] over [range(n)] is the formulation's sum. *)
Lemma eval_py_sum_range Xa (term : nat -> expr) n :
  eval Xa (py_sum (map term (range n))) == sigma n (fun i => eval Xa (term i)).
Proof.
  unfold py_sum, range. rewrite eval_fold_py_add. cbn [eval].
  induction n as [|n IH].
  - reflexivity.
  - rewrite seq_S, map_app, fold_left_app. cbn [map fold_left sigma Nat.add].
    rewrite IH. reflexivity.
Qed.

(** ** Generators, index sets and the variable *)

Lemma mapM_ok {A B} (f : A -> result B) (g : A -> B) (l : list A) :
  (forall a, a ∈ l -> f a = Ok (g a)) -> Res.mapM f l = Ok (map g l).
Proof.
  induction l as [|a rest IH]; intros Hall; [reflexivity|].
  cbn. rewrite Hall by left. cbn. rewrite IH; [reflexivity|].
  intros b Hb. apply Hall. right. assumption.
Qed.

Lemma elem_of_range k n : k ∈ range n <-> (k < n)%nat.
Proof. unfold range. rewrite elem_of_seq. lia. Qed.

Lemma elem_of_cross f w fs ws : (f, w) ∈ cross fs ws <-> f ∈ fs /\ w ∈ ws.
Proof.
  unfold cross. rewrite list_elem_of_In, in_flat_map. split.
  - intros (f' & Hf & Hin). apply in_map_iff in Hin as (w' & Heq & Hw).
    injection Heq as -> ->. rewrite !list_elem_of_In. auto.
  - intros [Hf Hw]. exists f. rewrite <- list_elem_of_In. split; [assumption|].
    apply in_map_iff. exists w. rewrite <- list_elem_of_In. auto.
Qed.

Lemma Var_lookup idx d k :
  var_value (Var idx d) !! k = if decide (k ∈ idx) then Some None else None.
Proof.
  unfold Var. cbn [var_value]. induction idx as [|a rest IH].
  - cbn. rewrite lookup_empty. destruct (decide (k ∈ [])) as [Hin|]; [inversion Hin|reflexivity].
  - cbn [map]. rewrite list_to_map_cons.
    destruct (decide (a = k)) as [->|Hne].
    + rewrite lookup_insert_eq. rewrite decide_True by left. reflexivity.
    + rewrite lookup_insert_ne by assumption. rewrite IH.
      destruct (decide (k ∈ rest)) as [Hin|Hnin].
      * rewrite decide_True by (right; assumption). reflexivity.
      * rewrite decide_False; [reflexivity|].
        intros Hin. apply elem_of_cons in Hin as [->|Hin]; [congruence|auto].
Qed.

(** ** The trace monad *)

Lemma bind_emit {B} (e : event) (k : unit -> Run B) :
  Run.bind (Run.emit e) k = (e :: fst (k tt), snd (k tt)).
Proof. unfold Run.bind, Run.emit. destruct (k tt); reflexivity. Qed.

Lemma bind_lift_Ok {A B} (a : A) (k : A -> Run B) :
  Run.bind (Run.lift (Ok a)) k = k a.
Proof. unfold Run.bind, Run.lift. destruct (k a); reflexivity. Qed.

Lemma bind_Ok {A B} (t : list event) (a : A) (k : A -> Run B) :
  Run.bind (t, Ok a) k = (t ++ fst (k a), snd (k a)).
Proof. unfold Run.bind. destruct (k a); reflexivity. Qed.

Lemma bind_emit_inv {B} (e : event) (k : unit -> Run B) tr r :
  Run.bind (Run.emit e) k = (tr, r) ->
  exists tr', tr = e :: tr' /\ k tt = (tr', r).
Proof.
  unfold Run.bind, Run.emit. destruct (k tt) as [t' b] eqn:Hk. cbn [app].
  intros Heq. injection Heq as <- <-. exists t'. split; [reflexivity|first [reflexivity|exact Hk]].
Qed.

Lemma bind_lift_inv {A B} (x : result A) (k : A -> Run B) tr b :
  Run.bind (Run.lift x) k = (tr, Ok b) ->
  exists a, x = Ok a /\ k a = (tr, Ok b).
Proof.
  unfold Run.bind, Run.lift. destruct x as [a|e]; [|discriminate].
  destruct (k a) as [t' r] eqn:Hk. cbn [app]. intros Heq. injection Heq as <- ->.
  exists a. split; [reflexivity|first [reflexivity|exact Hk]].
Qed.

(** ** The rules on a model whose sets, parameters and variable are in place *)

Lemma cost_func_Ok costs model f w c :
  cost_func costs model f w = Ok c ->
  (exists row, costs !! f = Some row /\ row !! w = Some c) /\ c = cost_at costs f w.
Proof.
  unfold cost_func, py_index, cost_at. intros Hc.
  destruct (costs !! f) as [row|] eqn:Hrow; cbn in Hc; [|discriminate].
  destruct (row !! w) as [c'|] eqn:Hw; [|discriminate].
  injection Hc as <-. split; [eauto|].
  rewrite (nth_lookup_Some _ _ _ _ Hrow). symmetry. apply nth_lookup_Some. assumption.
Qed.

Lemma cost_func_cases costs model f w :
  cost_func costs model f w = Raise IndexError \/
  exists c, cost_func costs model f w = Ok c.
Proof.
  unfold cost_func, py_index.
  destruct (costs !! f) as [row|]; cbn; [|auto].
  destruct (row !! w); eauto.
Qed.

Section Rules.
Variables (model : ConcreteModel) (n_f n_w : nat).
Hypothesis Hfac : facilities model = range n_f.
Hypothesis Hwar : warehouses model = range n_w.
Hypothesis HX : forall f w, (f < n_f)%nat -> (w < n_w)%nat ->
                            is_Some (var_value (X model) !! (f, w)).

Lemma getitem_X_Ok f w :
  (f < n_f)%nat -> (w < n_w)%nat -> getitem_X model f w = Ok (VarX f w).
Proof.
  intros Hf Hw. unfold getitem_X. destruct (HX f w Hf Hw) as [v ->]. reflexivity.
Qed.

Lemma capacity_rule_Ok f cap :
  (f < n_f)%nat -> capacity model !! f = Some cap ->
  capacity_rule model f = Ok (py_le (py_sum (map (VarX f) (range n_w))) (Num cap)).
Proof.
  intros Hf Hcap. unfold capacity_rule. rewrite Hwar.
  rewrite (mapM_ok _ (VarX f)).
  - cbn. unfold getitem. rewrite Hcap. reflexivity.
  - intros w Hw. apply getitem_X_Ok; [assumption|]. apply elem_of_range. assumption.
Qed.

Lemma demand_rule_Ok w dem :
  (w < n_w)%nat -> demand model !! w = Some dem ->
  demand_rule model w
  = Ok (py_ge (py_sum (map (fun f => VarX f w) (range n_f))) (Num dem)).
Proof.
  intros Hw Hdem. unfold demand_rule. rewrite Hfac.
  rewrite (mapM_ok _ (fun f => VarX f w)).
  - cbn. unfold getitem. rewrite Hdem. reflexivity.
  - intros f Hf. apply getitem_X_Ok; [|assumption]. apply elem_of_range. assumption.
Qed.

Lemma obj_rule_Ok (c : nat -> nat -> Q) :
  (forall f w, (f < n_f)%nat -> (w < n_w)%nat -> cost model !! (f, w) = Some (c f w)) ->
  obj_rule model
  = Ok (py_sum (map (fun fw => Prod (Num (c (fst fw) (snd fw))) (VarX (fst fw) (snd fw)))
                    (cross (range n_f) (range n_w)))).
Proof.
  intros Hc. unfold obj_rule. rewrite Hfac, Hwar.
  rewrite (mapM_ok _ (fun fw => Prod (Num (c (fst fw) (snd fw))) (VarX (fst fw) (snd fw)))).
  - reflexivity.
  - intros [f w] Hin. apply elem_of_cross in Hin as [Hf Hw].
    apply elem_of_range in Hf, Hw. unfold getitem. rewrite (Hc f w Hf Hw). cbn.
    rewrite (getitem_X_Ok f w Hf Hw). reflexivity.
Qed.
End Rules.

(** ** The model that [build] returns *)

Lemma Param_list_lookup (l : list Q) (c : gmap nat Q) k :
  Param (range (length l)) (fun i => py_index l i) = Ok c ->
  (k < length l)%nat -> c !! k = Some (nth k l 0).
Proof.
  intros Hc Hk. unfold Param in Hc.
  destruct (indexed_lookup_in _ _ _ k Hc) as (v & Hv & ->).
  { apply elem_of_range. assumption. }
  unfold py_index in Hv. destruct (l !! k) as [a|] eqn:Hl; [|discriminate].
  injection Hv as <-. f_equal. symmetry. apply nth_lookup_Some. assumption.
Qed.

Lemma Constraint_lookup_in idx rule c k :
  Constraint idx rule = Ok c -> k ∈ idx ->
  exists r, rule k = Ok r /\ c !! k = Some r /\ (forall b, r <> PyBool b).
Proof.
  intros Hc Hk. unfold Constraint in Hc.
  destruct (indexed_lookup_in _ _ _ k Hc Hk) as (v & Hv & Hl).
  destruct (rule k) as [r|]; [|discriminate]. cbn in Hv.
  exists r. destruct r; try discriminate; injection Hv as <-;
    (split; [reflexivity|split; [assumption|discriminate]]).
Qed.

Lemma Constraint_lookup_notin idx rule c k :
  Constraint idx rule = Ok c -> k ∉ idx -> c !! k = None.
Proof. intros Hc Hk. unfold Constraint in Hc. eapply indexed_lookup_notin; eassumption. Qed.

Lemma py_le_Num_inv a q :
  (forall b, py_le a (Num q) <> PyBool b) -> py_le a (Num q) = LessEq a (Num q).
Proof. destruct a; cbn; intros Hb; try reflexivity. destruct (Hb _ eq_refl). Qed.

Lemma py_ge_Num_inv a q :
  (forall b, py_ge a (Num q) <> PyBool b) -> py_ge a (Num q) = GreaterEq a (Num q).
Proof. destruct a; cbn; intros Hb; try reflexivity. destruct (Hb _ eq_refl). Qed.

Lemma build_Ok_inv capacities demands costs tr model :
  build capacities demands costs = (tr, Ok model) ->
  tr = build_trace /\ Built capacities demands costs model.
Proof.
  unfold build. cbv zeta.
  cbn [facilities warehouses set_facilities set_warehouses new_model set_cost
       set_capacity set_demand set_X set_CapacityCons set_DemandCons].
  intros H.
  apply bind_emit_inv in H as (tr1 & -> & H).
  apply bind_lift_inv in H as (c_cost & Hcost & H).
  apply bind_emit_inv in H as (tr2 & -> & H).
  apply bind_lift_inv in H as (c_cap & Hcap & H).
  apply bind_lift_inv in H as (c_dem & Hdem & H).
  apply bind_lift_inv in H as (c_CC & HCC & H).
  apply bind_emit_inv in H as (tr3 & -> & H).
  apply bind_lift_inv in H as (c_DC & HDC & H).
  apply bind_lift_inv in H as (e_obj & Hobj & H).
  apply bind_emit_inv in H as (tr4 & -> & H).
  unfold Run.ret in H. injection H as <- <-.
  split; [reflexivity|].
  set (m3 := set_X _ _) in *.
  assert (Hfac : facilities m3 = range (nF capacities)) by reflexivity.
  assert (Hwar : warehouses m3 = range (nW demands)) by reflexivity.
  assert (HX : forall f w,
             var_value (X m3) !! (f, w)
             = if decide ((f < nF capacities)%nat /\ (w < nW demands)%nat)
               then Some None else None).
  { intros f w. subst m3. cbn [X set_X]. rewrite Var_lookup.
    destruct (decide ((f, w) ∈ _)) as [Hin|Hnin].
    - apply elem_of_cross in Hin. rewrite !elem_of_range in Hin.
      rewrite decide_True by assumption. reflexivity.
    - rewrite decide_False; [reflexivity|]. intros Hlt. apply Hnin.
      apply elem_of_cross. rewrite !elem_of_range. assumption. }
  assert (HXs : forall f w, (f < nF capacities)%nat -> (w < nW demands)%nat ->
                            is_Some (var_value (X m3) !! (f, w))).
  { intros f w Hf Hw. rewrite HX, decide_True by auto. eauto. }
  assert (Hcosts : forall f w, (f < nF capacities)%nat -> (w < nW demands)%nat ->
      (exists row, costs !! f = Some row /\ row !! w = Some (cost_at costs f w))
      /\ cost m3 !! (f, w) = Some (cost_at costs f w)).
  { intros f w Hf Hw. unfold Param in Hcost.
    destruct (indexed_lookup_in _ _ _ (f, w) Hcost) as (v & Hv & Hl).
    { apply elem_of_cross. rewrite !elem_of_range. auto. }
    apply cost_func_Ok in Hv as [Hrow ->]. split; assumption. }
  assert (Hcapl : forall f, (f < nF capacities)%nat ->
                            capacity m3 !! f = Some (nth f capacities 0)).
  { intros f Hf. eapply Param_list_lookup; eassumption. }
  assert (Hdeml : forall w, (w < nW demands)%nat ->
                            demand m3 !! w = Some (nth w demands 0)).
  { intros w Hw. eapply Param_list_lookup; eassumption. }
  constructor; try assumption; try reflexivity.
  - (* an empty index set on one side only makes a rule return a Boolean *)
    split; intros Hpos.
    + destruct (Constraint_lookup_in _ _ _ 0%nat HCC) as (r & Hr & _ & Hnb).
      { apply elem_of_range. assumption. }
      rewrite (capacity_rule_Ok m3 _ _ Hwar HXs 0%nat _ Hpos (Hcapl _ Hpos)) in Hr.
      injection Hr as <-. destruct (nW demands); [|lia].
      destruct (Hnb _ eq_refl).
    + destruct (Constraint_lookup_in _ _ _ 0%nat HDC) as (r & Hr & _ & Hnb).
      { apply elem_of_range. assumption. }
      rewrite (demand_rule_Ok (set_CapacityCons m3 c_CC) _ _ Hfac HXs 0%nat _ Hpos
                 (Hdeml _ Hpos)) in Hr.
      injection Hr as <-. destruct (nF capacities); [|lia].
      destruct (Hnb _ eq_refl).
  - (* CapacityCons *)
    intros f. cbn [CapacityCons set_OBJ set_DemandCons set_CapacityCons].
    destruct (decide (f < nF capacities)%nat) as [Hf|Hf].
    + destruct (Constraint_lookup_in _ _ _ f HCC) as (r & Hr & -> & Hnb).
      { apply elem_of_range. assumption. }
      rewrite (capacity_rule_Ok m3 _ _ Hwar HXs f _ Hf (Hcapl f Hf)) in Hr.
      injection Hr as <-. f_equal. apply py_le_Num_inv. assumption.
    + eapply Constraint_lookup_notin; [eassumption|]. rewrite elem_of_range. assumption.
  - (* DemandCons *)
    intros w. cbn [DemandCons set_OBJ set_DemandCons].
    destruct (decide (w < nW demands)%nat) as [Hw|Hw].
    + destruct (Constraint_lookup_in _ _ _ w HDC) as (r & Hr & -> & Hnb).
      { apply elem_of_range. assumption. }
      rewrite (demand_rule_Ok (set_CapacityCons m3 c_CC) _ _ Hfac HXs w _ Hw (Hdeml w Hw)) in Hr.
      injection Hr as <-. f_equal. apply py_ge_Num_inv. assumption.
    + eapply Constraint_lookup_notin; [eassumption|]. rewrite elem_of_range. assumption.
  - (* OBJ *)
    cbn [OBJ set_OBJ].
    rewrite (obj_rule_Ok (set_DemandCons (set_CapacityCons m3 c_CC) c_DC) _ _
               Hfac Hwar HXs (cost_at costs)) in Hobj.
    + injection Hobj as <-. reflexivity.
    + intros f w Hf Hw. apply Hcosts; assumption.
Qed.

(** ** Feasible points of a built model *)

Lemma forallb_map_to_list `{Countable K} {V} (p : K * V -> bool) (m : gmap K V) :
  forallb p (map_to_list m) = true <-> forall k v, m !! k = Some v -> p (k, v) = true.
Proof.
  rewrite forallb_forall. split.
  - intros Hall k v Hl. apply Hall, list_elem_of_In, elem_of_map_to_list. assumption.
  - intros Hall [k v] Hin. apply Hall, elem_of_map_to_list, list_elem_of_In. assumption.
Qed.

Section Feasible.
Variables (capacities demands : list Q) (costs : list (list Q)).
Variable model : ConcreteModel.
Hypothesis HB : Built capacities demands costs model.

Lemma holds_CapacityCons Xa f :
  holds Xa (LessEq (py_sum (map (VarX f) (range (nW demands))))
                   (Num (nth f capacities 0))) = true
  <-> sigma (nW demands) (fun w => Xa f w) <= nth f capacities 0.
Proof.
  cbn [holds eval]. rewrite Qle_bool_iff, eval_py_sum_range. reflexivity.
Qed.

Lemma holds_DemandCons Xa w :
  holds Xa (GreaterEq (py_sum (map (fun f => VarX f w) (range (nF capacities))))
                      (Num (nth w demands 0))) = true
  <-> nth w demands 0 <= sigma (nF capacities) (fun f => Xa f w).
Proof.
  cbn [holds eval]. rewrite Qle_bool_iff, eval_py_sum_range. reflexivity.
Qed.

Lemma feasible_iff Xa :
  feasible model Xa = true <->
  (forall f w, (f < nF capacities)%nat -> (w < nW demands)%nat -> 0 <= Xa f w)
  /\ (forall f, (f < nF capacities)%nat ->
                sigma (nW demands) (fun w => Xa f w) <= nth f capacities 0)
  /\ (forall w, (w < nW demands)%nat ->
                nth w demands 0 <= sigma (nF capacities) (fun f => Xa f w)).
Proof.
  unfold feasible. rewrite !andb_true_iff, !forallb_map_to_list.
  rewrite (built_domain _ _ _ _ HB). cbn [fst snd in_domain].
  split.
  - intros [[HX HC] HD]. split; [|split].
    + intros f w Hf Hw. apply Qle_bool_iff. apply (HX (f, w) None).
      rewrite (built_X _ _ _ _ HB), decide_True by auto. reflexivity.
    + intros f Hf. apply holds_CapacityCons. apply (HC f).
      rewrite (built_CapacityCons _ _ _ _ HB), decide_True by assumption. reflexivity.
    + intros w Hw. apply holds_DemandCons. apply (HD w).
      rewrite (built_DemandCons _ _ _ _ HB), decide_True by assumption. reflexivity.
  - intros (HX & HC & HD). split; [split|].
    + intros [f w] v Hl. rewrite (built_X _ _ _ _ HB) in Hl.
      destruct (decide _) as [[Hf Hw]|]; [|discriminate].
      apply Qle_bool_iff. cbn [fst snd]. auto.
    + intros f c Hl. rewrite (built_CapacityCons _ _ _ _ HB) in Hl.
      destruct (decide _) as [Hf|]; [|discriminate]. injection Hl as <-.
      apply holds_CapacityCons. auto.
    + intros w c Hl. rewrite (built_DemandCons _ _ _ _ HB) in Hl.
      destruct (decide _) as [Hw|]; [|discriminate]. injection Hl as <-.
      apply holds_DemandCons. auto.
Qed.
End Feasible.

(** ** The objective *)

Lemma fold_sum_seq Xa (term : nat -> expr) n acc :
  fold_left (fun q e => q + eval Xa e) (map term (seq 0 n)) acc
  == acc + sigma n (fun i => eval Xa (term i)).
Proof.
  induction n as [|n IH].
  - cbn. ring.
  - rewrite seq_S, map_app, fold_left_app. cbn [map fold_left sigma Nat.add].
    rewrite IH. ring.
Qed.

Lemma cross_S n ws :
  cross (seq 0 (S n)) ws = cross (seq 0 n) ws ++ map (fun w => (n, w)) ws.
Proof.
  unfold cross. rewrite seq_S, flat_map_app. cbn [flat_map Nat.add].
  rewrite app_nil_r. reflexivity.
Qed.

Lemma eval_py_sum_cross Xa (term : nat * nat -> expr) n m :
  eval Xa (py_sum (map term (cross (range n) (range m))))
  == sigma n (fun f => sigma m (fun w => eval Xa (term (f, w)))).
Proof.
  unfold py_sum, range. rewrite eval_fold_py_add. cbn [eval].
  induction n as [|n IH].
  - reflexivity.
  - rewrite cross_S, map_app, fold_left_app, map_map.
    rewrite (fold_sum_seq Xa (fun w => term (n, w))). rewrite IH. reflexivity.
Qed.

Lemma vars_in_py_add P a b : vars_in P a -> vars_in P b -> vars_in P (py_add a b).
Proof. destruct a, b; cbn; tauto. Qed.

Lemma vars_in_py_sum P items :
  Forall (vars_in P) items -> vars_in P (py_sum items).
Proof.
  unfold py_sum. assert (Hacc : vars_in P (Num 0)) by exact I.
  revert Hacc. generalize (Num 0). induction items as [|e rest IH]; intros acc Hacc Hall.
  - assumption.
  - inversion Hall; subst. cbn [fold_left]. apply IH; [|assumption].
    apply vars_in_py_add; assumption.
Qed.

Lemma value_eval model Xa e :
  vars_in (fun f w => var_value (X model) !! (f, w) = Some (Some (Xa f w))) e ->
  value model e = Ok (eval Xa e).
Proof.
  induction e as [q|f w|a IHa b IHb|a IHa b IHb]; cbn [vars_in value eval].
  - reflexivity.
  - intros ->. reflexivity.
  - intros [Ha Hb]. rewrite IHa, IHb by assumption. reflexivity.
  - intros [Ha Hb]. rewrite IHa, IHb by assumption. reflexivity.
Qed.

Lemma load_var_value model results k :
  var_value (X (load model results)) !! k
  = match var_value (X model) !! k with
    | Some _ => Some (variable_values results !! k)
    | None => None
    end.
Proof.
  unfold load. cbn [X set_dual set_X var_value]. rewrite map_lookup_imap.
  destruct (var_value (X model) !! k); reflexivity.
Qed.

Section Loaded.
Variables (capacities demands : list Q) (costs : list (list Q)).
Variable model : ConcreteModel.
Hypothesis HB : Built capacities demands costs model.
Variable results : SolverResults.

Lemma loaded_value f w :
  (f < nF capacities)%nat -> (w < nW demands)%nat ->
  var_value (X (load model results)) !! (f, w)
  = Some (variable_values results !! (f, w)).
Proof.
  intros Hf Hw. rewrite load_var_value, (built_X _ _ _ _ HB).
  rewrite decide_True by auto. reflexivity.
Qed.

Lemma loaded_X_value f w :
  (f < nF capacities)%nat -> (w < nW demands)%nat ->
  X_value (load model results) f w = Ok (variable_values results !! (f, w)).
Proof.
  intros Hf Hw. unfold X_value, getitem. rewrite loaded_value by assumption.
  reflexivity.
Qed.

Lemma loaded_OBJ_call Xa :
  (forall f w, (f < nF capacities)%nat -> (w < nW demands)%nat ->
               variable_values results !! (f, w) = Some (Xa f w)) ->
  exists e, OBJ model = Some (e, minimize)
            /\ OBJ_call (load model results) = Ok (eval Xa e).
Proof.
  intros Hval. eexists. split; [apply (built_OBJ _ _ _ _ HB)|].
  unfold OBJ_call. change (OBJ (load model results)) with (OBJ model).
  rewrite (built_OBJ _ _ _ _ HB). apply value_eval, vars_in_py_sum.
  apply Forall_forall. intros e Hin.
  apply list_elem_of_In, in_map_iff in Hin as ([f w] & <- & Hin).
  apply list_elem_of_In, elem_of_cross in Hin as [Hf Hw].
  apply elem_of_range in Hf, Hw. cbn [vars_in fst snd]. split; [exact I|].
  rewrite loaded_value, Hval by assumption. reflexivity.
Qed.
End Loaded.

Lemma eval_objective capacities demands costs Xa :
  eval Xa (py_sum (map (fun fw => Prod (Num (cost_at costs (fst fw) (snd fw)))
                                       (VarX (fst fw) (snd fw)))
                       (cross (range (nF capacities)) (range (nW demands)))))
  == total_cost costs (nF capacities) (nW demands) Xa.
Proof. rewrite eval_py_sum_cross. reflexivity. Qed.

(** ** What a run prints *)

(** ['%d'] cuts towards zero, and a comparison of two numbers is a
    Boolean that Pyomo does not take for a constraint. *)
Example truncate_cuts_towards_zero :
  truncate 2.7 = 2%Z /\ truncate (-2.7) = (-2)%Z /\ truncate 0.5 = 0%Z.
Proof. repeat split. Qed.

Example empty_sum_is_refused :
  Constraint (range 1) (fun _ => Ok (py_le (py_sum []) (Num 2))) = Raise ValueError.
Proof. reflexivity. Qed.

Lemma bind_fst_Forall {A B} (P : event -> Prop) (r : Run A) (k : A -> Run B) :
  Forall P (fst r) -> (forall a, Forall P (fst (k a))) ->
  Forall P (fst (Run.bind r k)).
Proof.
  intros Hr Hk. destruct r as [t [a|e]]; cbn in *; [|assumption].
  specialize (Hk a). destruct (k a) as [t' b]. cbn in *.
  apply Forall_app. split; assumption.
Qed.

Lemma lift_fst_Forall {A} (P : event -> Prop) (r : result A) :
  Forall P (fst (Run.lift r)).
Proof. constructor. Qed.

Lemma emit_fst_Forall (P : event -> Prop) (e : event) :
  P e -> Forall P (fst (Run.emit e)).
Proof. intros He. repeat constructor. assumption. Qed.

Lemma for_each_fst_Forall {A} (P : event -> Prop) (l : list A) (body : A -> Run unit) :
  (forall a, Forall P (fst (body a))) -> Forall P (fst (Run.for_each l body)).
Proof.
  intros Hbody. induction l as [|a rest IH]; cbn [Run.for_each].
  - constructor.
  - apply bind_fst_Forall; [apply Hbody|]. intros _. assumption.
Qed.

Lemma for_each_Ok {A} (l : list A) (body : A -> Run unit) (out : A -> list event) :
  (forall a, a ∈ l -> body a = (out a, Ok tt)) ->
  Run.for_each l body = (flat_map out l, Ok tt).
Proof.
  induction l as [|a rest IH]; intros Hbody; [reflexivity|].
  cbn [Run.for_each flat_map]. rewrite Hbody by left. rewrite bind_Ok.
  rewrite IH; [reflexivity|]. intros b Hb. apply Hbody. right. assumption.
Qed.

(** The lines of the shipments are those of the pairs with a nonzero
    value. *)
Lemma in_shipment_lines Xa n_f n_w e :
  In e (shipment_lines Xa n_f n_w)
  <-> exists f w, (f < n_f)%nat /\ (w < n_w)%nat /\ ~ Xa f w == 0
                  /\ e = PrintTransport (truncate (Xa f w)) f w.
Proof.
  unfold shipment_lines. rewrite in_flat_map. split.
  - intros (f & Hf & Hin). apply in_flat_map in Hin as (w & Hw & Hin).
    apply list_elem_of_In, elem_of_range in Hf, Hw.
    unfold shipment_line in Hin.
    destruct (Qeq_bool (Xa f w) 0) eqn:Hz; [destruct Hin|].
    destruct Hin as [<-|[]]. exists f, w.
    split; [assumption|split; [assumption|split; [|reflexivity]]].
    intros Hzero. apply Qeq_bool_iff in Hzero. congruence.
  - intros (f & w & Hf & Hw & Hnz & ->). exists f.
    split; [apply list_elem_of_In, elem_of_range; assumption|].
    apply in_flat_map. exists w.
    split; [apply list_elem_of_In, elem_of_range; assumption|].
    unfold shipment_line. destruct (Qeq_bool (Xa f w) 0) eqn:Hz.
    + apply Qeq_bool_iff in Hz. contradiction.
    + left. reflexivity.
Qed.

(** Searching the output of a run segment by segment: [in_next] splits
    off the first segment, [not_here] closes a segment that is written
    out and does not hold the event. *)
Ltac in_next Hin := apply in_app_or in Hin as [Hin|Hin].
Ltac not_here Hin := solve [cbn in Hin; intuition discriminate].

Section Printing.
Variables (capacities demands : list Q) (costs : list (list Q)).
Variable model : ConcreteModel.
Hypothesis HB : Built capacities demands costs model.
Variable results : SolverResults.

Lemma all_values_X_of f w :
  all_values results (nF capacities) (nW demands) ->
  (f < nF capacities)%nat -> (w < nW demands)%nat ->
  variable_values results !! (f, w) = Some (X_of results f w).
Proof.
  intros Hall Hf Hw. unfold X_of. destruct (Hall f w Hf Hw) as [q ->]. reflexivity.
Qed.

Lemma print_shipments_Ok :
  all_values results (nF capacities) (nW demands) ->
  print_shipments (load model results)
  = (shipment_lines (X_of results) (nF capacities) (nW demands), Ok tt).
Proof.
  intros Hall. unfold print_shipments, shipment_lines.
  change (facilities (load model results)) with (facilities model).
  change (warehouses (load model results)) with (warehouses model).
  rewrite (built_facilities _ _ _ _ HB), (built_warehouses _ _ _ _ HB).
  apply for_each_Ok. intros f Hf. apply elem_of_range in Hf.
  apply for_each_Ok. intros w Hw. apply elem_of_range in Hw.
  rewrite (loaded_X_value _ _ _ _ HB) by assumption.
  rewrite all_values_X_of by assumption. rewrite bind_lift_Ok.
  unfold shipment_line, py_ne_zero.
  destruct (Qeq_bool (X_of results f w) 0); cbn [negb]; [reflexivity|].
  cbn [format_d]. rewrite bind_lift_Ok. reflexivity.
Qed.

Lemma print_duals_Ok :
  capacity_duals results (nF capacities) ->
  print_duals (load model results)
  = (dual_lines (dual_of results) (nF capacities), Ok tt).
Proof.
  intros Hall. unfold print_duals, dual_lines.
  change (facilities (load model results)) with (facilities model).
  change (CapacityCons (load model results)) with (CapacityCons model).
  change (dual (load model results)) with (dual_values results).
  rewrite (built_facilities _ _ _ _ HB).
  rewrite (for_each_Ok _ _
             (fun f => [PrintDual (CapacityCons_at f) (dual_of results (CapacityCons_at f))])).
  - f_equal.
  - intros f Hf. apply elem_of_range in Hf. unfold getitem.
    rewrite (built_CapacityCons _ _ _ _ HB), decide_True by assumption.
    rewrite bind_lift_Ok. unfold dual_of. destruct (Hall f Hf) as [d ->].
    rewrite bind_lift_Ok. reflexivity.
Qed.

(** Whatever was loaded, the loop over the duals prints nothing but duals
    of capacity constraints. *)
Lemma print_duals_only m :
  Forall (fun e => exists f d, e = PrintDual (CapacityCons_at f) d) (fst (print_duals m)).
Proof.
  unfold print_duals. apply for_each_fst_Forall. intros f.
  apply bind_fst_Forall; [apply lift_fst_Forall|]. intros _.
  apply bind_fst_Forall; [apply lift_fst_Forall|]. intros d.
  apply emit_fst_Forall. eauto.
Qed.

(** The first lines of the post-processing, when [X[0,1]] exists. *)
Lemma post_processing_head :
  (1 < nW demands)%nat ->
  exists rest,
    fst (post_processing (load model results))
    = PrintValue (variable_values results !! (0, 1)%nat) :: PrintBlank :: rest.
Proof.
  intros HnW. unfold post_processing.
  assert (HnF : (0 < nF capacities)%nat) by (apply (built_nonempty _ _ _ _ HB); lia).
  rewrite (loaded_X_value _ _ _ _ HB) by assumption.
  rewrite bind_lift_Ok, bind_emit. cbn [fst]. rewrite bind_emit. cbn [fst].
  eexists. reflexivity.
Qed.

(** The whole post-processing of a complete solution. *)
Lemma post_processing_Ok :
  (1 < nW demands)%nat ->
  all_values results (nF capacities) (nW demands) ->
  capacity_duals results (nF capacities) ->
  post_processing (load model results)
  = ([PrintValue (Some (X_of results 0 1)); PrintBlank]
       ++ shipment_lines (X_of results) (nF capacities) (nW demands)
       ++ [PrintBlank]
       ++ dual_lines (dual_of results) (nF capacities)
       ++ [PrintObjective
             (eval (X_of results)
                (py_sum
                   (map (fun fw => Prod (Num (cost_at costs (fst fw) (snd fw)))
                                        (VarX (fst fw) (snd fw)))
                        (cross (range (nF capacities)) (range (nW demands))))))],
      Ok tt).
Proof.
  intros HnW Hval Hdual. unfold post_processing.
  assert (HnF : (0 < nF capacities)%nat) by (apply (built_nonempty _ _ _ _ HB); lia).
  rewrite (loaded_X_value _ _ _ _ HB) by assumption.
  rewrite all_values_X_of by assumption.
  rewrite bind_lift_Ok, print_shipments_Ok, print_duals_Ok by assumption.
  destruct (loaded_OBJ_call _ _ _ _ HB results (X_of results)) as (e & He & ->).
  { intros f w Hf Hw. apply all_values_X_of; assumption. }
  rewrite (built_OBJ _ _ _ _ HB) in He. injection He as <-.
  reflexivity.
Qed.
End Printing.

Section Whole.
Variables (capacities demands : list Q) (costs : list (list Q)).
Variable solve : ConcreteModel -> result SolverResults.
Variables (tr : list event) (model : ConcreteModel) (results : SolverResults).
Hypothesis Hbuild : build capacities demands costs = (tr, Ok model).
Hypothesis Hsolve : solve model = Ok results.

(** A run in which the model is built and the solver answers. *)
Lemma script_run :
  script capacities demands costs solve
  = (build_trace
       ++ [SolverCall; PrintBlank; PrintStatus (status results);
           PrintTermination (termination_condition results)]
       ++ fst (post_processing (load model results)),
     snd (post_processing (load model results))).
Proof.
  unfold script. rewrite Hbuild.
  destruct (build_Ok_inv _ _ _ _ _ Hbuild) as [-> _].
  rewrite bind_Ok, bind_emit, Hsolve, bind_lift_Ok, !bind_emit.
  cbn [fst snd]. reflexivity.
Qed.

Lemma post_processing_shipments :
  (1 < nW demands)%nat ->
  all_values results (nF capacities) (nW demands) ->
  exists tl,
    fst (post_processing (load model results))
    = [PrintValue (Some (X_of results 0 1)); PrintBlank]
        ++ shipment_lines (X_of results) (nF capacities) (nW demands)
        ++ PrintBlank :: tl
    /\ Forall (fun e => forall u f w, e <> PrintTransport u f w) tl.
Proof.
  intros HnW Hval.
  destruct (build_Ok_inv _ _ _ _ _ Hbuild) as [_ HB].
  assert (HnF : (0 < nF capacities)%nat) by (apply (built_nonempty _ _ _ _ HB); lia).
  unfold post_processing.
  rewrite (loaded_X_value _ _ _ _ HB) by assumption.
  rewrite (all_values_X_of capacities demands results 0 1 Hval HnF HnW).
  rewrite bind_lift_Ok, (print_shipments_Ok _ _ _ _ HB) by assumption.
  rewrite bind_emit. cbn [fst]. rewrite bind_emit. cbn [fst].
  rewrite bind_Ok. cbn [fst]. rewrite bind_emit. cbn [fst].
  eexists. split; [reflexivity|].
  apply bind_fst_Forall.
  - eapply Forall_impl; [apply print_duals_only|].
    intros e (f & d & ->). discriminate.
  - intros _. apply bind_fst_Forall; [apply lift_fst_Forall|].
    intros obj. apply emit_fst_Forall. discriminate.
Qed.
End Whole.

(** ** Sums *)

Lemma sigma_le n g h :
  (forall i, (i < n)%nat -> g i <= h i) -> sigma n g <= sigma n h.
Proof.
  induction n as [|n IH]; intros Hgh; cbn [sigma].
  - apply Qle_refl.
  - apply Qplus_le_compat; [apply IH; intros i Hi; apply Hgh; lia|apply Hgh; lia].
Qed.

Lemma sigma_plus n g h :
  sigma n (fun i => g i + h i) == sigma n g + sigma n h.
Proof.
  induction n as [|n IH]; cbn [sigma]; [ring|]. rewrite IH. ring.
Qed.

Lemma sigma_swap n m (Xa : nat -> nat -> Q) :
  sigma n (fun f => sigma m (fun w => Xa f w))
  == sigma m (fun w => sigma n (fun f => Xa f w)).
Proof.
  induction n as [|n IH]; cbn [sigma].
  - induction m as [|m IHm]; cbn [sigma]; [reflexivity|]. rewrite <- IHm. ring.
  - rewrite sigma_plus, IH. reflexivity.
Qed.

Lemma sigma_shift n g :
  sigma (S n) g == g 0%nat + sigma n (fun i => g (S i)).
Proof.
  induction n as [|n IH].
  - cbn [sigma]. ring.
  - change (sigma (S (S n)) g) with (sigma (S n) g + g (S n)).
    rewrite IH. cbn [sigma]. ring.
Qed.

Lemma total_sigma (l : list Q) :
  total l == sigma (length l) (fun i => nth i l 0).
Proof.
  induction l as [|a l IH].
  - reflexivity.
  - change (length (a :: l)) with (S (length l)). rewrite sigma_shift.
    cbn [total fold_right nth]. fold (total l). rewrite IH. reflexivity.
Qed.

(** In a feasible plan the demands are covered out of the capacities. *)
Lemma feasible_totals capacities demands costs model Xa :
  Built capacities demands costs model ->
  feasible model Xa = true ->
  total demands <= sigma (nF capacities) (fun f => sigma (nW demands) (fun w => Xa f w))
  /\ sigma (nF capacities) (fun f => sigma (nW demands) (fun w => Xa f w))
     <= total capacities.
Proof.
  intros HB Hfeas.
  apply (feasible_iff _ _ _ _ HB) in Hfeas as (_ & Hcap & Hdem).
  split.
  - rewrite sigma_swap, total_sigma. apply sigma_le. exact Hdem.
  - rewrite (total_sigma capacities). apply sigma_le. exact Hcap.
Qed.

(** ** The instance of the script *)

Lemma build_hardcoded :
  build capacities demands costs = (build_trace, Ok hardcoded_model).
Proof. vm_compute. reflexivity. Qed.

Lemma Built_hardcoded : Built capacities demands costs hardcoded_model.
Proof. apply (build_Ok_inv _ _ _ _ _ build_hardcoded). Qed.

Lemma objective_value_built capacities demands costs model Xa :
  Built capacities demands costs model ->
  objective_value model Xa == total_cost costs (nF capacities) (nW demands) Xa.
Proof.
  intros HB. unfold objective_value. rewrite (built_OBJ _ _ _ _ HB).
  apply eval_objective.
Qed.

Lemma feasible_hardcoded Xa :
  feasible hardcoded_model Xa = true ->
  (0 <= Xa 0%nat 0%nat /\ 0 <= Xa 0%nat 1%nat /\ 0 <= Xa 1%nat 0%nat
   /\ 0 <= Xa 1%nat 1%nat /\ 0 <= Xa 2%nat 0%nat /\ 0 <= Xa 2%nat 1%nat)
  /\ (Xa 0%nat 0%nat + Xa 0%nat 1%nat <= 2
      /\ Xa 1%nat 0%nat + Xa 1%nat 1%nat <= 3
      /\ Xa 2%nat 0%nat + Xa 2%nat 1%nat <= 3)
  /\ (4 <= Xa 0%nat 0%nat + Xa 1%nat 0%nat + Xa 2%nat 0%nat
      /\ 4 <= Xa 0%nat 1%nat + Xa 1%nat 1%nat + Xa 2%nat 1%nat).
Proof.
  intros Hfeas.
  apply (feasible_iff _ _ _ _ Built_hardcoded) in Hfeas as (Hpos & Hcap & Hdem).
  change (nF capacities) with 3%nat in *. change (nW demands) with 2%nat in *.
  assert (H0 := Hcap 0%nat ltac:(lia)). assert (H1 := Hcap 1%nat ltac:(lia)).
  assert (H2 := Hcap 2%nat ltac:(lia)).
  assert (D0 := Hdem 0%nat ltac:(lia)). assert (D1 := Hdem 1%nat ltac:(lia)).
  cbn in H0, H1, H2, D0, D1.
  repeat split; try (apply Hpos; lia); lra.
Qed.

Lemma objective_value_hardcoded Xa :
  objective_value hardcoded_model Xa
  == 1 * Xa 0%nat 0%nat + 2 * Xa 0%nat 1%nat + 2 * Xa 1%nat 0%nat
     + 2 * Xa 1%nat 1%nat + 2 * Xa 2%nat 0%nat + 3 * Xa 2%nat 1%nat.
Proof.
  rewrite (objective_value_built _ _ _ _ _ Built_hardcoded).
  change (nF capacities) with 3%nat. change (nW demands) with 2%nat.
  unfold total_cost. cbn. ring.
Qed.

(** C1, as amended: on the instance of the script the model is built, the
    least cost of a feasible plan is 15, and the plan X[0,0]=2, X[1,1]=3,
    X[2,0]=2, X[2,1]=1 is feasible and costs 15. *)
Theorem hardcoded_optimum_is_15 :
  snd (build capacities demands costs) = Ok hardcoded_model
  /\ is_minimum hardcoded_model 15
  /\ feasible hardcoded_model stated_flow = true
  /\ objective_value hardcoded_model stated_flow == 15.
Proof.
  assert (Hfeas : feasible hardcoded_model stated_flow = true) by (vm_compute; reflexivity).
  assert (Hval : objective_value hardcoded_model stated_flow == 15).
  { rewrite objective_value_hardcoded. reflexivity. }
  split; [rewrite build_hardcoded; reflexivity|].
  split; [split|split; assumption].
  - exists stated_flow. split; assumption.
  - intros Xa HXa. rewrite objective_value_hardcoded.
    apply feasible_hardcoded in HXa. lra.
Qed.

(** C1, as stated, fails: the stated plan costs 15, and 9 is not the
    least cost, no feasible plan being that cheap. *)
Lemma hardcoded_optimum_is_not_9 :
  objective_value hardcoded_model stated_flow == 15
  /\ ~ is_minimum hardcoded_model 9.
Proof.
  split.
  - rewrite objective_value_hardcoded. reflexivity.
  - intros [(Xa & HXa & Hval) _]. rewrite objective_value_hardcoded in Hval.
    apply feasible_hardcoded in HXa. lra.
Qed.

(** ** The constraints and the objective of a built model *)

(** C2: for every facility f below nF, the constraint CapacityCons[f] of
    the built model is the inequality sum over w of X[f,w] <= capacities[f]:
    it is that expression, it holds at a plan exactly when the sum is at
    most the capacity, and every feasible plan satisfies it. *)
Theorem CapacityCons_is_capacity_bound capacities demands costs tr model f :
  build capacities demands costs = (tr, Ok model) ->
  (f < nF capacities)%nat ->
  exists c,
    CapacityCons model !! f = Some c
    /\ c = LessEq (py_sum (map (VarX f) (range (nW demands))))
                  (Num (nth f capacities 0))
    /\ (forall Xa, holds Xa c = true
                   <-> sigma (nW demands) (fun w => Xa f w) <= nth f capacities 0)
    /\ (forall Xa, feasible model Xa = true ->
                   sigma (nW demands) (fun w => Xa f w) <= nth f capacities 0).
Proof.
  intros Hbuild Hf. destruct (build_Ok_inv _ _ _ _ _ Hbuild) as [_ HB].
  eexists. split; [|split; [reflexivity|split]].
  - rewrite (built_CapacityCons _ _ _ _ HB), decide_True by assumption. reflexivity.
  - intros Xa. apply holds_CapacityCons.
  - intros Xa Hfeas. apply (feasible_iff _ _ _ _ HB) in Hfeas as (_ & Hcap & _).
    apply Hcap. assumption.
Qed.

Lemma CapacityCons_is_capacity_bound_witness :
  exists c,
    CapacityCons hardcoded_model !! 1%nat = Some c
    /\ c = LessEq (py_sum (map (VarX 1) (range (nW demands))))
                  (Num (nth 1 capacities 0))
    /\ (forall Xa, holds Xa c = true
                   <-> sigma (nW demands) (fun w => Xa 1%nat w) <= nth 1 capacities 0)
    /\ (forall Xa, feasible hardcoded_model Xa = true ->
                   sigma (nW demands) (fun w => Xa 1%nat w) <= nth 1 capacities 0).
Proof.
  apply (CapacityCons_is_capacity_bound capacities demands costs build_trace
           hardcoded_model 1).
  - vm_compute. reflexivity.
  - vm_compute. lia.
Defined.

(** C3: for every warehouse w below nW, the constraint DemandCons[w] of
    the built model is the inequality sum over f of X[f,w] >= demands[w]:
    it is that expression, it holds at a plan exactly when the sum is at
    least the demand, and every feasible plan satisfies it. *)
Theorem DemandCons_is_demand_bound capacities demands costs tr model w :
  build capacities demands costs = (tr, Ok model) ->
  (w < nW demands)%nat ->
  exists c,
    DemandCons model !! w = Some c
    /\ c = GreaterEq (py_sum (map (fun f => VarX f w) (range (nF capacities))))
                     (Num (nth w demands 0))
    /\ (forall Xa, holds Xa c = true
                   <-> nth w demands 0 <= sigma (nF capacities) (fun f => Xa f w))
    /\ (forall Xa, feasible model Xa = true ->
                   nth w demands 0 <= sigma (nF capacities) (fun f => Xa f w)).
Proof.
  intros Hbuild Hw. destruct (build_Ok_inv _ _ _ _ _ Hbuild) as [_ HB].
  eexists. split; [|split; [reflexivity|split]].
  - rewrite (built_DemandCons _ _ _ _ HB), decide_True by assumption. reflexivity.
  - intros Xa. apply holds_DemandCons.
  - intros Xa Hfeas. apply (feasible_iff _ _ _ _ HB) in Hfeas as (_ & _ & Hdem).
    apply Hdem. assumption.
Qed.

Lemma DemandCons_is_demand_bound_witness :
  exists c,
    DemandCons hardcoded_model !! 0%nat = Some c
    /\ c = GreaterEq (py_sum (map (fun f => VarX f 0) (range (nF capacities))))
                     (Num (nth 0 demands 0))
    /\ (forall Xa, holds Xa c = true
                   <-> nth 0 demands 0 <= sigma (nF capacities) (fun f => Xa f 0%nat))
    /\ (forall Xa, feasible hardcoded_model Xa = true ->
                   nth 0 demands 0 <= sigma (nF capacities) (fun f => Xa f 0%nat)).
Proof.
  apply (DemandCons_is_demand_bound capacities demands costs build_trace
           hardcoded_model 0).
  - vm_compute. reflexivity.
  - vm_compute. lia.
Defined.





(** ** Total capacity against total demand *)

(** C10: on the instance of the script total capacity and total demand are
    both 8, so every feasible plan ships 8 in total and meets every
    capacity constraint and every demand constraint with equality. *)
Theorem hardcoded_feasible_is_tight (Xa : nat -> nat -> Q) :
  feasible hardcoded_model Xa = true ->
  total capacities == 8 /\ total demands == 8
  /\ sigma (nF capacities) (fun f => sigma (nW demands) (fun w => Xa f w)) == 8
  /\ (forall f, (f < nF capacities)%nat ->
                sigma (nW demands) (fun w => Xa f w) == nth f capacities 0)
  /\ (forall w, (w < nW demands)%nat ->
                sigma (nF capacities) (fun f => Xa f w) == nth w demands 0).
Proof.
  intros Hfeas. apply feasible_hardcoded in Hfeas.
  change (nF capacities) with 3%nat. change (nW demands) with 2%nat.
  split; [reflexivity|split; [reflexivity|split; [|split]]].
  - cbn [sigma]. lra.
  - intros f Hf.
    destruct f as [|[|[|f]]]; [| | |lia]; cbn [sigma nth capacities]; lra.
  - intros w Hw.
    destruct w as [|[|w]]; [| |lia]; cbn [sigma nth demands]; lra.
Qed.

Lemma hardcoded_feasible_is_tight_witness :
  total capacities == 8 /\ total demands == 8
  /\ sigma (nF capacities) (fun f => sigma (nW demands) (fun w => stated_flow f w)) == 8
  /\ (forall f, (f < nF capacities)%nat ->
                sigma (nW demands) (fun w => stated_flow f w) == nth f capacities 0)
  /\ (forall w, (w < nW demands)%nat ->
                sigma (nF capacities) (fun f => stated_flow f w) == nth w demands 0).
Proof.
  apply (hardcoded_feasible_is_tight stated_flow). vm_compute. reflexivity.
Defined.




(** ** Shape of the cost matrix *)

(** C5, as amended: when the cost matrix lacks an entry the model needs
    (fewer than nF rows while there is a warehouse, or one of the first nF
    rows shorter than nW), the script fails with IndexError while the cost
    parameter is built, after the first pprint and before any solver
    call. *)
Theorem small_cost_matrix_raises_IndexError capacities demands costs solve :
  ((length costs < nF capacities)%nat /\ (0 < nW demands)%nat)
  \/ (exists f row, (f < nF capacities)%nat /\ costs !! f = Some row
                    /\ (length row < nW demands)%nat) ->
  script capacities demands costs solve = ([Pprint the_facilities], Raise IndexError)
  /\ ~ In SolverCall (fst (script capacities demands costs solve)).
Proof.
  intros Hsmall.
  assert (Hmiss : exists f w, (f < nF capacities)%nat /\ (w < nW demands)%nat
                              /\ cost_func costs new_model f w = Raise IndexError).
  { destruct Hsmall as [[Hrows Hw]|(f & row & Hf & Hrow & Hlen)].
    - exists (length costs), 0%nat. split; [assumption|split; [assumption|]].
      unfold cost_func, py_index. rewrite (lookup_ge_None_2 costs (length costs)) by lia.
      reflexivity.
    - exists f, (length row). split; [assumption|split; [assumption|]].
      unfold cost_func, py_index. rewrite Hrow. cbn.
      rewrite (lookup_ge_None_2 row (length row)) by lia. reflexivity. }
  destruct Hmiss as (f & w & Hf & Hw & Hraise).
  assert (Hrun : script capacities demands costs solve
                 = ([Pprint the_facilities], Raise IndexError)).
  { unfold script, build. cbv zeta.
    cbn [facilities warehouses set_facilities set_warehouses new_model].
    unfold Param.
    rewrite (indexed_raise _ _ IndexError (f, w)).
    - reflexivity.
    - intros [f' w'] _. apply cost_func_cases.
    - apply elem_of_cross. rewrite !elem_of_range. auto.
    - exact Hraise. }
  rewrite Hrun. split; [reflexivity|].
  cbn. intros [Heq|[]]. discriminate.
Qed.

Lemma small_cost_matrix_raises_IndexError_witness :
  script capacities demands short_costs reference_solver
  = ([Pprint the_facilities], Raise IndexError)
  /\ ~ In SolverCall (fst (script capacities demands short_costs reference_solver)).
Proof.
  apply (small_cost_matrix_raises_IndexError capacities demands short_costs reference_solver).
  left. vm_compute. lia.
Defined.

(** C5, as stated, fails: with a row too many the script raises nothing,
    calls the solver and runs to its end. *)
Lemma surplus_rows_reach_the_solver :
  length surplus_rows <> nF capacities
  /\ snd (script capacities demands surplus_rows reference_solver) = Ok tt
  /\ In SolverCall (fst (script capacities demands surplus_rows reference_solver)).
Proof.
  split; [vm_compute; lia|]. split; [vm_compute; reflexivity|].
  vm_compute. tauto.
Qed.

(** ** After the solve *)

(** C6, as amended: whatever status and termination condition the solver
    reports, the script prints both and goes on with the post-processing:
    with at least two warehouses the next lines are the value of X[0,1]
    and a blank line, and the post-processing is the same for any two
    answers with the same variable values and duals. *)
Theorem status_is_printed_not_checked capacities demands costs solve tr model results :
  build capacities demands costs = (tr, Ok model) ->
  solve model = Ok results ->
  (1 < nW demands)%nat ->
  (exists rest,
     fst (script capacities demands costs solve)
     = build_trace
         ++ [SolverCall; PrintBlank; PrintStatus (status results);
             PrintTermination (termination_condition results);
             PrintValue (variable_values results !! (0, 1)%nat); PrintBlank]
         ++ rest)
  /\ (forall results',
        variable_values results' = variable_values results ->
        dual_values results' = dual_values results ->
        post_processing (load model results') = post_processing (load model results)).
Proof.
  intros Hbuild Hsolve HnW. destruct (build_Ok_inv _ _ _ _ _ Hbuild) as [_ HB].
  split.
  - rewrite (script_run _ _ _ _ _ _ _ Hbuild Hsolve). cbn [fst].
    destruct (post_processing_head _ _ _ _ HB results HnW) as [rest ->].
    exists rest. reflexivity.
  - intros results' Hval Hdual. unfold load. rewrite Hval, Hdual. reflexivity.
Qed.

Lemma status_is_printed_not_checked_witness :
  (exists rest,
     fst (script capacities demands costs infeasible_solver)
     = build_trace
         ++ [SolverCall; PrintBlank; PrintStatus (status infeasible_results);
             PrintTermination (termination_condition infeasible_results);
             PrintValue (variable_values infeasible_results !! (0, 1)%nat); PrintBlank]
         ++ rest)
  /\ (forall results',
        variable_values results' = variable_values infeasible_results ->
        dual_values results' = dual_values infeasible_results ->
        post_processing (load hardcoded_model results')
        = post_processing (load hardcoded_model infeasible_results)).
Proof.
  apply (status_is_printed_not_checked capacities demands costs infeasible_solver
           build_trace hardcoded_model infeasible_results).
  - vm_compute. reflexivity.
  - reflexivity.
  - vm_compute. lia.
Defined.

(** C6, as stated, fails: the solver reports an infeasible problem with a
    warning status, and the script still reads and prints X[0,1].value
    (None); it then stops with the TypeError of '%d' % None in the loop
    over the shipments. *)
Lemma infeasible_answer_is_post_processed :
  termination_condition infeasible_results <> optimal
  /\ script capacities demands costs infeasible_solver
     = (build_trace
          ++ [SolverCall; PrintBlank; PrintStatus warning;
              PrintTermination infeasible; PrintValue None; PrintBlank],
        Raise TypeError).
Proof.
  split; [discriminate|]. vm_compute. reflexivity.
Qed.

(** C9, as amended: in a run with at least two warehouses where the solver
    gave every variable a value, a line for the pair (f,w) is printed
    exactly when the value of X[f,w] is not zero, and the line shows the
    integer part of that value; a pair whose value is zero has no line. *)
Theorem shipment_printed_iff_nonzero capacities demands costs solve tr model results :
  build capacities demands costs = (tr, Ok model) ->
  solve model = Ok results ->
  (1 < nW demands)%nat ->
  all_values results (nF capacities) (nW demands) ->
  forall f w units,
    In (PrintTransport units f w) (fst (script capacities demands costs solve))
    <-> ((f < nF capacities)%nat /\ (w < nW demands)%nat
         /\ ~ X_of results f w == 0
         /\ units = truncate (X_of results f w)).
Proof.
  intros Hbuild Hsolve HnW Hval f w units.
  rewrite (script_run _ _ _ _ _ _ _ Hbuild Hsolve). cbn [fst].
  destruct (post_processing_shipments _ _ _ _ _ _ Hbuild HnW Hval) as (tl & -> & Htl).
  split.
  - intros Hin.
    in_next Hin; [not_here Hin|]. in_next Hin; [not_here Hin|].
    in_next Hin; [not_here Hin|]. in_next Hin.
    + apply in_shipment_lines in Hin as (f' & w' & Hf & Hw & Hnz & Heq).
      injection Heq as -> -> ->. auto.
    + destruct Hin as [Heq|Hin]; [discriminate|].
      rewrite Forall_forall in Htl. apply list_elem_of_In in Hin.
      destruct (Htl _ Hin units f w eq_refl).
  - intros (Hf & Hw & Hnz & ->).
    do 3 (apply in_or_app; right). apply in_or_app. left.
    apply in_shipment_lines. exists f, w. auto.
Qed.

Lemma shipment_printed_iff_nonzero_witness :
  In (PrintTransport 3 1 1) (fst (script capacities demands costs reference_solver))
  <-> ((1 < nF capacities)%nat /\ (1 < nW demands)%nat
       /\ ~ X_of reference_results 1 1 == 0
       /\ 3%Z = truncate (X_of reference_results 1 1)).
Proof.
  apply (shipment_printed_iff_nonzero capacities demands costs reference_solver
           build_trace hardcoded_model reference_results).
  - vm_compute. reflexivity.
  - reflexivity.
  - vm_compute. lia.
  - intros f w Hf Hw.
    destruct f as [|[|[|f]]]; [| | |vm_compute in Hf; lia];
      (destruct w as [|[|w]]; [| |vm_compute in Hw; lia]); vm_compute; eauto.
Defined.

(** C9, as stated, fails: with a single warehouse and a complete answer
    in which X[0,0] = 2, the script stops at line 126 with KeyError and
    prints no shipment at all. *)
Lemma one_warehouse_prints_no_shipment :
  variable_values single_results !! (0, 0)%nat = Some 2
  /\ feasible single_model (X_of single_results) = true
  /\ script capacities single_demand single_costs single_solver
     = (build_trace
          ++ [SolverCall; PrintBlank; PrintStatus ok; PrintTermination optimal],
        Raise KeyError)
  /\ (forall units, ~ In (PrintTransport units 0 0)
                         (fst (script capacities single_demand single_costs
                                 single_solver))).
Proof.
  assert (Hrun : script capacities single_demand single_costs single_solver
                 = (build_trace
                      ++ [SolverCall; PrintBlank; PrintStatus ok;
                          PrintTermination optimal],
                    Raise KeyError)) by (vm_compute; reflexivity).
  split; [vm_compute; reflexivity|]. split; [vm_compute; reflexivity|].
  split; [exact Hrun|]. rewrite Hrun. intros units Hin.
  cbn in Hin. intuition discriminate.
Qed.

(** The whole run on the instance of the script with the reference
    answer. *)
Example reference_run :
  script capacities demands costs reference_solver
  = (build_trace
       ++ [SolverCall; PrintBlank; PrintStatus ok; PrintTermination optimal;
           PrintValue (Some 0); PrintBlank;
           PrintTransport 2 0 0; PrintTransport 3 1 1;
           PrintTransport 2 2 0; PrintTransport 1 2 1; PrintBlank;
           PrintDual (CapacityCons_at 0) (-1); PrintDual (CapacityCons_at 1) (-1);
           PrintDual (CapacityCons_at 2) 0; PrintObjective 15],
     Ok tt).
Proof. vm_compute. reflexivity. Qed.

(** No run prints the dual of a demand constraint. *)
Lemma script_prints_no_demand_dual capacities demands costs solve :
  Forall (fun e => forall w d, e <> PrintDual (DemandCons_at w) d)
         (fst (script capacities demands costs solve)).
Proof.
  unfold script. apply bind_fst_Forall.
  { unfold build. cbv zeta.
    repeat (apply bind_fst_Forall;
            [first [apply emit_fst_Forall; discriminate | apply lift_fst_Forall]
            |intros ?]).
    constructor. }
  intros model. apply bind_fst_Forall; [apply emit_fst_Forall; discriminate|]. intros _.
  apply bind_fst_Forall; [apply lift_fst_Forall|]. intros results.
  repeat (apply bind_fst_Forall; [apply emit_fst_Forall; discriminate|intros _]).
  unfold post_processing.
  apply bind_fst_Forall; [apply lift_fst_Forall|]. intros v.
  repeat (apply bind_fst_Forall; [apply emit_fst_Forall; discriminate|intros _]).
  apply bind_fst_Forall.
  { unfold print_shipments. apply for_each_fst_Forall. intros f.
    apply for_each_fst_Forall. intros w.
    apply bind_fst_Forall; [apply lift_fst_Forall|]. intros x.
    destruct (py_ne_zero x); [|constructor].
    apply bind_fst_Forall; [apply lift_fst_Forall|]. intros u.
    apply emit_fst_Forall. discriminate. }
  intros _. apply bind_fst_Forall; [apply emit_fst_Forall; discriminate|]. intros _.
  apply bind_fst_Forall.
  { eapply Forall_impl; [apply print_duals_only|].
    intros e (f & d & ->). discriminate. }
  intros _. apply bind_fst_Forall; [apply lift_fst_Forall|]. intros obj.
  apply emit_fst_Forall. discriminate.
Qed.

(** C8, as amended: no run of the script prints the dual of a
    DemandCons[w]; in a run with at least two warehouses where the solver
    gave every variable a value and every capacity constraint a dual, the
    script prints the dual of CapacityCons[f] for every facility f. *)
Theorem capacity_duals_are_printed capacities demands costs solve :
  (forall w d, ~ In (PrintDual (DemandCons_at w) d)
                    (fst (script capacities demands costs solve)))
  /\ (forall tr model results,
        build capacities demands costs = (tr, Ok model) ->
        solve model = Ok results ->
        (1 < nW demands)%nat ->
        all_values results (nF capacities) (nW demands) ->
        capacity_duals results (nF capacities) ->
        forall f, (f < nF capacities)%nat ->
                  In (PrintDual (CapacityCons_at f) (dual_of results (CapacityCons_at f)))
                     (fst (script capacities demands costs solve))).
Proof.
  split.
  - intros w d Hin.
    assert (Hall := script_prints_no_demand_dual capacities demands costs solve).
    rewrite Forall_forall in Hall. apply list_elem_of_In in Hin.
    apply (Hall _ Hin w d). reflexivity.
  - intros tr model results Hbuild Hsolve HnW Hval Hdual f Hf.
    destruct (build_Ok_inv _ _ _ _ _ Hbuild) as [_ HB].
    rewrite (script_run _ _ _ _ _ _ _ Hbuild Hsolve). cbn [fst].
    rewrite (post_processing_Ok _ _ _ _ HB results HnW Hval Hdual). cbn [fst].
    do 5 (apply in_or_app; right). apply in_or_app. left.
    unfold dual_lines. apply in_map_iff. exists f.
    split; [reflexivity|]. apply list_elem_of_In, elem_of_range. assumption.
Qed.

Lemma capacity_duals_are_printed_witness :
  (forall w d, ~ In (PrintDual (DemandCons_at w) d)
                    (fst (script capacities demands costs reference_solver)))
  /\ (forall f, (f < nF capacities)%nat ->
                In (PrintDual (CapacityCons_at f)
                      (dual_of reference_results (CapacityCons_at f)))
                   (fst (script capacities demands costs reference_solver))).
Proof.
  destruct (capacity_duals_are_printed capacities demands costs reference_solver)
    as [Hnone Hall].
  split; [exact Hnone|].
  apply (Hall build_trace hardcoded_model reference_results).
  - vm_compute. reflexivity.
  - reflexivity.
  - vm_compute. lia.
  - intros f w Hf Hw.
    destruct f as [|[|[|f]]]; [| | |vm_compute in Hf; lia];
      (destruct w as [|[|w]]; [| |vm_compute in Hw; lia]); vm_compute; eauto.
  - intros f Hf.
    destruct f as [|[|[|f]]]; [| | |vm_compute in Hf; lia]; vm_compute; eauto.
Defined.

(** C8, as stated, fails: the solver gives a dual to all five constraints
    of the instance, the run ends normally, and no dual of DemandCons[0]
    is printed. *)
Lemma demand_duals_are_not_printed :
  termination_condition reference_results = optimal
  /\ dual_values reference_results !! DemandCons_at 0 = Some 2
  /\ snd (script capacities demands costs reference_solver) = Ok tt
  /\ (forall d, ~ In (PrintDual (DemandCons_at 0) d)
                     (fst (script capacities demands costs reference_solver))).
Proof.
  split; [reflexivity|]. split; [vm_compute; reflexivity|].
  rewrite reference_run. split; [reflexivity|].
  intros d Hin. cbn in Hin. intuition discriminate.
Qed.

(** * Further properties of the script *)

(** ** Runs that stop early *)

Lemma bind_Raise_l {A B} (r : Run A) (k : A -> Run B) e :
  snd r = Raise e -> Run.bind r k = (fst r, Raise e).
Proof. destruct r as [t [a|e']]; cbn; intros Heq; [discriminate|congruence]. Qed.

(** X1: line 126 reads X[0,1] whatever the data: with fewer than two
    warehouses the script stops with KeyError right after the termination
    condition, and no value, dual or objective is printed. *)
Theorem fewer_than_two_warehouses_is_KeyError
        capacities demands costs solve tr model results :
  build capacities demands costs = (tr, Ok model) ->
  solve model = Ok results ->
  (nW demands < 2)%nat ->
  script capacities demands costs solve
  = (build_trace
       ++ [SolverCall; PrintBlank; PrintStatus (status results);
           PrintTermination (termination_condition results)],
     Raise KeyError).
Proof.
  intros Hbuild Hsolve HnW. destruct (build_Ok_inv _ _ _ _ _ Hbuild) as [_ HB].
  rewrite (script_run _ _ _ _ _ _ _ Hbuild Hsolve).
  assert (Hpp : post_processing (load model results) = ([], Raise KeyError)).
  { unfold post_processing, X_value, getitem.
    rewrite load_var_value, (built_X _ _ _ _ HB).
    rewrite decide_False by lia. reflexivity. }
  rewrite Hpp. cbn [fst snd]. rewrite app_nil_r. reflexivity.
Qed.

Lemma fewer_than_two_warehouses_is_KeyError_witness :
  script capacities single_demand single_costs reference_solver
  = (build_trace
       ++ [SolverCall; PrintBlank; PrintStatus (status reference_results);
           PrintTermination (termination_condition reference_results)],
     Raise KeyError).
Proof.
  apply (fewer_than_two_warehouses_is_KeyError capacities single_demand single_costs
           reference_solver build_trace single_model reference_results).
  - vm_compute. reflexivity.
  - reflexivity.
  - vm_compute. lia.
Defined.

(** ** A complete run *)


Lemma reference_all_values : all_values reference_results 3 2.
Proof.
  intros f w Hf Hw.
  destruct f as [|[|[|f]]]; [| | |lia];
    (destruct w as [|[|w]]; [| |lia]); vm_compute; eauto.
Qed.



(** ** The feasible plans of a built model *)

(** X3: a plan satisfies a built model exactly when X[f,w] >= 0 for every
    facility f and warehouse w, every facility ships at most its capacity
    and every warehouse receives at least its demand; what the plan says
    outside the index set does not matter. *)
Theorem feasible_plans capacities demands costs tr model Xa :
  build capacities demands costs = (tr, Ok model) ->
  feasible model Xa = true <->
  (forall f w, (f < nF capacities)%nat -> (w < nW demands)%nat -> 0 <= Xa f w)
  /\ (forall f, (f < nF capacities)%nat ->
                sigma (nW demands) (fun w => Xa f w) <= nth f capacities 0)
  /\ (forall w, (w < nW demands)%nat ->
                nth w demands 0 <= sigma (nF capacities) (fun f => Xa f w)).
Proof.
  intros Hbuild. destruct (build_Ok_inv _ _ _ _ _ Hbuild) as [_ HB].
  apply (feasible_iff _ _ _ _ HB).
Qed.

Lemma feasible_plans_witness :
  feasible hardcoded_model stated_flow = true <->
  (forall f w, (f < nF capacities)%nat -> (w < nW demands)%nat -> 0 <= stated_flow f w)
  /\ (forall f, (f < nF capacities)%nat ->
                sigma (nW demands) (fun w => stated_flow f w) <= nth f capacities 0)
  /\ (forall w, (w < nW demands)%nat ->
                nth w demands 0 <= sigma (nF capacities) (fun f => stated_flow f w)).
Proof.
  apply (feasible_plans capacities demands costs build_trace hardcoded_model stated_flow).
  vm_compute. reflexivity.
Defined.

Lemma sigma_nonneg n g :
  (forall i, (i < n)%nat -> 0 <= g i) -> 0 <= sigma n g.
Proof.
  induction n as [|n IH]; intros Hg; cbn [sigma]; [apply Qle_refl|].
  assert (H1 : 0 <= sigma n g) by (apply IH; intros i Hi; apply Hg; lia).
  assert (H2 : 0 <= g n) by (apply Hg; lia). lra.
Qed.

Lemma sigma_term_le n g i :
  (forall j, (j < n)%nat -> 0 <= g j) -> (i < n)%nat -> g i <= sigma n g.
Proof.
  induction n as [|n IH]; intros Hg Hi; [lia|]. cbn [sigma].
  assert (H1 : 0 <= sigma n g) by (apply sigma_nonneg; intros j Hj; apply Hg; lia).
  assert (H2 : 0 <= g n) by (apply Hg; lia).
  destruct (decide (i = n)) as [->|Hne]; [lra|].
  assert (H3 : g i <= sigma n g) by (apply IH; [intros j Hj; apply Hg|]; lia). lra.
Qed.

(** X4: in a feasible plan no single shipment exceeds the capacity of its
    facility: 0 <= X[f,w] <= capacities[f]. *)
Theorem shipment_within_capacity capacities demands costs tr model Xa f w :
  build capacities demands costs = (tr, Ok model) ->
  feasible model Xa = true ->
  (f < nF capacities)%nat -> (w < nW demands)%nat ->
  0 <= Xa f w /\ Xa f w <= nth f capacities 0.
Proof.
  intros Hbuild Hfeas Hf Hw. destruct (build_Ok_inv _ _ _ _ _ Hbuild) as [_ HB].
  apply (feasible_iff _ _ _ _ HB) in Hfeas as (Hpos & Hcap & _).
  split; [apply Hpos; assumption|].
  apply Qle_trans with (sigma (nW demands) (fun w' => Xa f w')); [|apply Hcap; assumption].
  apply (sigma_term_le (nW demands) (fun w' => Xa f w')); [|assumption].
  intros j Hj. apply Hpos; assumption.
Qed.

Lemma shipment_within_capacity_witness :
  0 <= stated_flow 2 1 /\ stated_flow 2 1 <= nth 2 capacities 0.
Proof.
  apply (shipment_within_capacity capacities demands costs build_trace
           hardcoded_model stated_flow 2 1).
  - vm_compute. reflexivity.
  - vm_compute. reflexivity.
  - vm_compute. lia.
  - vm_compute. lia.
Defined.

(** X5: with no negative entry in the part of the cost matrix the model
    uses, the objective is never negative on a feasible plan: the built
    program is bounded. *)
Theorem objective_is_bounded_below capacities demands costs tr model Xa :
  build capacities demands costs = (tr, Ok model) ->
  (forall f w, (f < nF capacities)%nat -> (w < nW demands)%nat ->
               0 <= cost_at costs f w) ->
  feasible model Xa = true ->
  0 <= objective_value model Xa.
Proof.
  intros Hbuild Hcost Hfeas. destruct (build_Ok_inv _ _ _ _ _ Hbuild) as [_ HB].
  rewrite (objective_value_built _ _ _ _ _ HB).
  apply (feasible_iff _ _ _ _ HB) in Hfeas as (Hpos & _ & _).
  unfold total_cost. apply sigma_nonneg. intros f Hf.
  apply sigma_nonneg. intros w Hw.
  apply Qmult_le_0_compat; [apply Hcost|apply Hpos]; assumption.
Qed.

Lemma objective_is_bounded_below_witness :
  feasible hardcoded_model stated_flow = true
  /\ 0 <= objective_value hardcoded_model stated_flow.
Proof.
  split; [vm_compute; reflexivity|].
  apply (objective_is_bounded_below capacities demands costs build_trace
           hardcoded_model stated_flow).
  - vm_compute. reflexivity.
  - intros f w Hf Hw.
    destruct f as [|[|[|f]]]; [| | |vm_compute in Hf; lia];
      (destruct w as [|[|w]]; [| |vm_compute in Hw; lia]); vm_compute; discriminate.
  - vm_compute. reflexivity.
Defined.

(** ** When the model can be built *)

Lemma indexed_total `{Countable K} {V} (idx : list K) (rule : K -> result V) :
  (forall k, k ∈ idx -> exists v, rule k = Ok v) ->
  exists m, indexed idx rule = Ok m.
Proof.
  induction idx as [|a rest IH]; intros Hall.
  - exists ∅. reflexivity.
  - destruct (Hall a) as [v Hv]; [left|].
    destruct IH as [m Hm].
    { intros k Hk. apply Hall. right. assumption. }
    exists (<[a := v]> m). cbn. rewrite Hv. cbn. rewrite Hm. reflexivity.
Qed.

Lemma indexed_ext `{Countable K} {V} (idx : list K) (r1 r2 : K -> result V) :
  (forall k, k ∈ idx -> r1 k = r2 k) -> indexed idx r1 = indexed idx r2.
Proof.
  induction idx as [|a rest IH]; intros Hall; [reflexivity|].
  cbn. rewrite (Hall a) by left. rewrite IH; [reflexivity|].
  intros k Hk. apply Hall. right. assumption.
Qed.

Lemma cost_func_entry costs model f w :
  cost_func costs model f w
  = match entry costs f w with
    | Some c => Ok c
    | None => Raise IndexError
    end.
Proof.
  unfold cost_func, py_index, entry. destruct (costs !! f) as [row|]; reflexivity.
Qed.

Lemma has_entries_entry costs n_f n_w :
  has_entries costs n_f n_w
  <-> forall f w, (f < n_f)%nat -> (w < n_w)%nat -> is_Some (entry costs f w).
Proof.
  unfold has_entries, entry. split; intros Hall f w Hf Hw.
  - destruct (Hall f w Hf Hw) as (row & -> & Hrow). assumption.
  - specialize (Hall f w Hf Hw). destruct (costs !! f) as [row|]; [eauto|].
    destruct Hall as [c Hc]. discriminate.
Qed.

Lemma fold_py_add_Sum items a b :
  exists a' b', fold_left py_add items (Sum a b) = Sum a' b'.
Proof.
  revert a b. induction items as [|e rest IH]; intros a b; cbn [fold_left]; [eauto|].
  apply IH.
Qed.

Lemma py_sum_range_Sum (term : nat -> expr) n :
  (forall i q, term i <> Num q) -> (0 < n)%nat ->
  exists a b, py_sum (map term (range n)) = Sum a b.
Proof.
  intros Hterm Hn. destruct n as [|n]; [lia|].
  unfold py_sum, range. cbn [seq map fold_left].
  assert (Hadd : py_add (Num 0) (term 0%nat) = Sum (Num 0) (term 0%nat)).
  { destruct (term 0%nat) eqn:Ht; try reflexivity. destruct (Hterm 0%nat q Ht). }
  rewrite Hadd. apply fold_py_add_Sum.
Qed.

Lemma Param_list_total (l : list Q) :
  exists c, Param (range (length l)) (fun i => py_index l i) = Ok c.
Proof.
  apply indexed_total. intros k Hk. apply elem_of_range in Hk.
  unfold py_index. destruct (lookup_lt_is_Some_2 l k Hk) as [a ->]. eauto.
Qed.

Lemma bind_emit_eq {B} (e : event) (k : unit -> Run B) t r :
  k tt = (t, r) -> Run.bind (Run.emit e) k = (e :: t, r).
Proof. intros Hk. rewrite bind_emit, Hk. reflexivity. Qed.

Lemma bind_lift_eq {A B} (x : result A) (a : A) (k : A -> Run B) res :
  x = Ok a -> k a = res -> Run.bind (Run.lift x) k = res.
Proof. intros -> <-. apply bind_lift_Ok. Qed.

Lemma bind_lift_Raise_eq {A B} (x : result A) (k : A -> Run B) e :
  x = Raise e -> Run.bind (Run.lift x) k = ([], Raise e).
Proof. intros ->. reflexivity. Qed.

Section Partial.
Variables (capacities demands : list Q).
Variables (c_cost : gmap (nat * nat) Q) (c_cap c_dem : gmap nat Q).
Hypothesis Hcap : Param (range (nF capacities)) (fun f => py_index capacities f) = Ok c_cap.
Hypothesis Hdem : Param (range (nW demands)) (fun w => py_index demands w) = Ok c_dem.

Lemma partial_X f w :
  (f < nF capacities)%nat -> (w < nW demands)%nat ->
  is_Some (var_value (X (model_before_constraints capacities demands c_cost c_cap c_dem))
             !! (f, w)).
Proof.
  intros Hf Hw. unfold model_before_constraints. cbn [X set_X]. rewrite Var_lookup.
  rewrite decide_True; [eauto|]. apply elem_of_cross. rewrite !elem_of_range. auto.
Qed.

Lemma partial_capacity_rule f :
  (f < nF capacities)%nat ->
  capacity_rule (model_before_constraints capacities demands c_cost c_cap c_dem) f
  = Ok (py_le (py_sum (map (VarX f) (range (nW demands)))) (Num (nth f capacities 0))).
Proof.
  intros Hf.
  assert (Hl : c_cap !! f = Some (nth f capacities 0))
    by (eapply Param_list_lookup; eassumption).
  apply (capacity_rule_Ok _ (nF capacities) (nW demands));
    try reflexivity; try assumption; exact partial_X.
Qed.

Lemma partial_demand_rule c_CC w :
  (w < nW demands)%nat ->
  demand_rule
    (set_CapacityCons (model_before_constraints capacities demands c_cost c_cap c_dem) c_CC) w
  = Ok (py_ge (py_sum (map (fun f => VarX f w) (range (nF capacities))))
              (Num (nth w demands 0))).
Proof.
  intros Hw.
  assert (Hl : c_dem !! w = Some (nth w demands 0))
    by (eapply Param_list_lookup; eassumption).
  apply (demand_rule_Ok _ (nF capacities) (nW demands));
    try reflexivity; try assumption; exact partial_X.
Qed.
End Partial.

Lemma build_Ok capacities demands costs :
  ((0 < nF capacities)%nat <-> (0 < nW demands)%nat) ->
  has_entries costs (nF capacities) (nW demands) ->
  exists model, build capacities demands costs = (build_trace, Ok model).
Proof.
  intros Hne Hent0. assert (Hent := proj1 (has_entries_entry _ _ _) Hent0).
  clear Hent0. unfold build. cbv zeta.
  cbn [facilities warehouses set_facilities set_warehouses new_model set_cost
       set_capacity set_demand set_X set_CapacityCons set_DemandCons].
  (* the cost parameter *)
  lazymatch goal with
  | |- context [Run.lift (Param ?idx ?init)] =>
      assert (Hcost : exists c, Param idx init = Ok c)
  end.
  { apply indexed_total. intros [f w] Hin. apply elem_of_cross in Hin as [Hf Hw].
    apply elem_of_range in Hf, Hw. rewrite cost_func_entry.
    destruct (Hent f w Hf Hw) as [c ->]. eauto. }
  destruct Hcost as [c_cost Hcost].
  destruct (Param_list_total capacities) as [c_cap Hcap].
  destruct (Param_list_total demands) as [c_dem Hdem].
  fold (nF capacities) in Hcap. fold (nW demands) in Hdem.
  (* the capacity constraints *)
  assert (HCC : exists c,
             Constraint (range (nF capacities))
               (capacity_rule
                  (model_before_constraints capacities demands c_cost c_cap c_dem))
             = Ok c).
  { apply indexed_total. intros f Hf. apply elem_of_range in Hf.
    rewrite (partial_capacity_rule capacities demands c_cost c_cap c_dem Hcap f Hf).
    destruct (py_sum_range_Sum (VarX f) (nW demands)) as (a & b & ->);
      [discriminate|apply Hne; lia|]. cbn. eauto. }
  destruct HCC as [c_CC HCC].
  (* the demand constraints *)
  assert (HDC : exists c,
             Constraint (range (nW demands))
               (demand_rule
                  (set_CapacityCons
                     (model_before_constraints capacities demands c_cost c_cap c_dem)
                     c_CC))
             = Ok c).
  { apply indexed_total. intros w Hw. apply elem_of_range in Hw.
    rewrite (partial_demand_rule capacities demands c_cost c_cap c_dem Hdem c_CC w Hw).
    destruct (py_sum_range_Sum (fun f => VarX f w) (nF capacities)) as (a & b & ->);
      [discriminate|apply Hne; lia|]. cbn. eauto. }
  destruct HDC as [c_DC HDC].
  (* the objective *)
  eexists. unfold build_trace.
  apply bind_emit_eq. eapply bind_lift_eq; [exact Hcost|].
  apply bind_emit_eq. eapply bind_lift_eq; [exact Hcap|].
  eapply bind_lift_eq; [exact Hdem|].
  eapply bind_lift_eq; [exact HCC|].
  apply bind_emit_eq. eapply bind_lift_eq; [exact HDC|].
  eapply bind_lift_eq.
  - apply (obj_rule_Ok _ (nF capacities) (nW demands)) with (c := cost_at costs);
      [reflexivity|reflexivity| |].
    + intros f w Hf Hw. cbn [X set_DemandCons set_CapacityCons].
      apply (partial_X capacities demands c_cost c_cap c_dem f w Hf Hw).
    + intros f w Hf Hw. cbn [cost set_DemandCons set_CapacityCons set_X set_demand
                               set_capacity set_cost].
      unfold Param in Hcost.
      destruct (indexed_lookup_in _ _ _ (f, w) Hcost) as (v & Hv & ->).
      { apply elem_of_cross. rewrite !elem_of_range. auto. }
      apply cost_func_Ok in Hv as [_ ->]. reflexivity.
  - apply bind_emit_eq. reflexivity.
Qed.

(** X6: the model is built, with nothing raised and the four pprints
    printed, exactly when the cost matrix has an entry for every facility
    and warehouse and either both index sets are empty or neither is. *)
Theorem build_succeeds_iff capacities demands costs :
  (exists tr model, build capacities demands costs = (tr, Ok model))
  <-> (((0 < nF capacities)%nat <-> (0 < nW demands)%nat)
       /\ has_entries costs (nF capacities) (nW demands)).
Proof.
  split.
  - intros (tr & model & Hbuild). destruct (build_Ok_inv _ _ _ _ _ Hbuild) as [_ HB].
    split; [apply (built_nonempty _ _ _ _ HB)|].
    intros f w Hf Hw. destruct (built_costs _ _ _ _ HB f w Hf Hw) as [(row & Hrow & Hw') _].
    exists row. split; [assumption|]. rewrite Hw'. eauto.
  - intros [Hne Hent]. destruct (build_Ok _ _ _ Hne Hent) as [model Hbuild].
    eauto.
Qed.

Lemma indexed_first_raise `{Countable K} {V} (a : K) (rest : list K)
      (rule : K -> result V) e :
  rule a = Raise e -> indexed (a :: rest) rule = Raise e.
Proof. intros Ha. cbn. rewrite Ha. reflexivity. Qed.

Lemma cross_empty_r (fs : list nat) : cross fs [] = [].
Proof. unfold cross. induction fs as [|f fs IH]; [reflexivity|]. cbn. assumption. Qed.

Lemma build_one_empty capacities demands costs :
  ((0 < nF capacities)%nat /\ nW demands = 0%nat)
  \/ (nF capacities = 0%nat /\ (0 < nW demands)%nat) ->
  build capacities demands costs
  = (if decide (nW demands = 0%nat)
     then [Pprint the_facilities; Pprint the_cost]
     else [Pprint the_facilities; Pprint the_cost; Pprint the_CapacityCons],
     Raise ValueError).
Proof.
  intros Hone.
  destruct (Param_list_total capacities) as [c_cap Hcap].
  destruct (Param_list_total demands) as [c_dem Hdem].
  fold (nF capacities) in Hcap. fold (nW demands) in Hdem.
  unfold build. cbv zeta.
  cbn [facilities warehouses set_facilities set_warehouses new_model set_cost
       set_capacity set_demand set_X set_CapacityCons set_DemandCons].
  destruct Hone as [[HnF HnW]|[HnF HnW]].
  - (* no warehouse: the first capacity rule gives a Boolean *)
    rewrite decide_True by assumption.
    revert Hcap Hdem. rewrite HnW. intros Hcap Hdem.
    change (range 0) with (@nil nat). rewrite cross_empty_r.
    destruct (nF capacities) as [|n] eqn:En; [lia|].
    change (range (S n)) with (0%nat :: seq 1 n) in *.
    apply bind_emit_eq. eapply bind_lift_eq; [reflexivity|].
    apply bind_emit_eq. eapply bind_lift_eq; [exact Hcap|].
    eapply bind_lift_eq; [exact Hdem|].
    apply bind_lift_Raise_eq. unfold Constraint. apply indexed_first_raise.
    unfold capacity_rule. cbn [warehouses set_X set_demand set_capacity set_cost
                               set_warehouses Res.mapM Res.bind capacity].
    unfold getitem. unfold Param in Hcap.
    destruct (indexed_lookup_in _ _ _ 0%nat Hcap) as (v & _ & ->); [left|].
    reflexivity.
  - (* no facility: the first demand rule gives a Boolean *)
    rewrite decide_False by lia.
    revert Hcap Hdem. rewrite HnF. intros Hcap Hdem.
    change (range 0) with (@nil nat).
    destruct (nW demands) as [|n] eqn:En; [lia|].
    change (range (S n)) with (0%nat :: seq 1 n) in *.
    apply bind_emit_eq. eapply bind_lift_eq; [reflexivity|].
    apply bind_emit_eq. eapply bind_lift_eq; [exact Hcap|].
    eapply bind_lift_eq; [exact Hdem|].
    eapply bind_lift_eq; [reflexivity|].
    apply bind_emit_eq.
    apply bind_lift_Raise_eq. unfold Constraint. apply indexed_first_raise.
    unfold demand_rule. cbn [facilities set_CapacityCons set_X set_demand set_capacity
                             set_cost set_warehouses set_facilities new_model
                             Res.mapM Res.bind demand].
    unfold getitem. unfold Param in Hdem.
    destruct (indexed_lookup_in _ _ _ 0%nat Hdem) as (v & _ & ->); [left|].
    reflexivity.
Qed.

(** X7: with facilities but no warehouse, or warehouses but no facility,
    the rule of the first constraint compares two plain numbers, Pyomo
    refuses the Boolean, and the script stops with ValueError before the
    solver is called: after the pprint of the cost parameter in the first
    case, after the pprint of the capacity constraints in the second. *)
Theorem one_empty_index_set_is_ValueError capacities demands costs solve :
  ((0 < nF capacities)%nat /\ nW demands = 0%nat)
  \/ (nF capacities = 0%nat /\ (0 < nW demands)%nat) ->
  script capacities demands costs solve
  = (if decide (nW demands = 0%nat)
     then [Pprint the_facilities; Pprint the_cost]
     else [Pprint the_facilities; Pprint the_cost; Pprint the_CapacityCons],
     Raise ValueError).
Proof.
  intros Hone. unfold script. rewrite (build_one_empty _ _ _ Hone). reflexivity.
Qed.

Lemma one_empty_index_set_is_ValueError_witness :
  script capacities no_demand costs reference_solver
  = (if decide (nW no_demand = 0%nat)
     then [Pprint the_facilities; Pprint the_cost]
     else [Pprint the_facilities; Pprint the_cost; Pprint the_CapacityCons],
     Raise ValueError).
Proof.
  apply (one_empty_index_set_is_ValueError capacities no_demand costs reference_solver).
  left. vm_compute. split; [lia|reflexivity].
Defined.

(** ** What the components hold *)

Lemma build_Ok_params capacities demands costs tr model :
  build capacities demands costs = (tr, Ok model) ->
  Param (cross (range (nF capacities)) (range (nW demands)))
        (fun '(f, w) => cost_func costs new_model f w) = Ok (cost model)
  /\ Param (range (nF capacities)) (fun f => py_index capacities f) = Ok (capacity model)
  /\ Param (range (nW demands)) (fun w => py_index demands w) = Ok (demand model).
Proof.
  unfold build. cbv zeta.
  cbn [facilities warehouses set_facilities set_warehouses new_model set_cost
       set_capacity set_demand set_X set_CapacityCons set_DemandCons].
  intros H.
  apply bind_emit_inv in H as (tr1 & -> & H).
  apply bind_lift_inv in H as (c_cost & Hcost & H).
  apply bind_emit_inv in H as (tr2 & -> & H).
  apply bind_lift_inv in H as (c_cap & Hcap & H).
  apply bind_lift_inv in H as (c_dem & Hdem & H).
  apply bind_lift_inv in H as (c_CC & HCC & H).
  apply bind_emit_inv in H as (tr3 & -> & H).
  apply bind_lift_inv in H as (c_DC & HDC & H).
  apply bind_lift_inv in H as (e_obj & Hobj & H).
  apply bind_emit_inv in H as (tr4 & -> & H).
  unfold Run.ret in H. injection H as <- <-.
  cbn [cost capacity demand set_OBJ set_DemandCons set_CapacityCons set_X set_demand
       set_capacity set_cost].
  split; [exact Hcost|split; assumption].
Qed.

(** X8: the parameters hold the data: model.capacity and model.demand are
    the two input lists, index by index, and model.cost[f,w] is costs[f][w]
    for every facility f and warehouse w and has no other entry, whatever
    else the cost matrix holds. *)
Theorem parameters_hold_the_data capacities demands costs tr model :
  build capacities demands costs = (tr, Ok model) ->
  (forall f, capacity model !! f = capacities !! f)
  /\ (forall w, demand model !! w = demands !! w)
  /\ (forall f w,
        cost model !! (f, w)
        = if decide ((f < nF capacities)%nat /\ (w < nW demands)%nat)
          then entry costs f w else None)
  /\ (forall f w, (f < nF capacities)%nat -> (w < nW demands)%nat ->
                  is_Some (cost model !! (f, w))).
Proof.
  intros Hbuild. destruct (build_Ok_params _ _ _ _ _ Hbuild) as (Hcost & Hcap & Hdem).
  assert (Hlist : forall (l : list Q) (c : gmap nat Q),
             Param (range (length l)) (fun i => py_index l i) = Ok c ->
             forall k, c !! k = l !! k).
  { intros l c Hc k. destruct (decide (k < length l)%nat) as [Hk|Hk].
    - rewrite (Param_list_lookup l c k Hc Hk).
      destruct (lookup_lt_is_Some_2 l k Hk) as [a Ha]. rewrite Ha.
      f_equal. apply nth_lookup_Some. assumption.
    - rewrite (lookup_ge_None_2 l k) by lia.
      unfold Param in Hc. eapply indexed_lookup_notin; [exact Hc|].
      rewrite elem_of_range. assumption. }
  assert (Hc : forall f w,
             cost model !! (f, w)
             = if decide ((f < nF capacities)%nat /\ (w < nW demands)%nat)
               then entry costs f w else None).
  { intros f w. unfold Param in Hcost.
    destruct (decide _) as [[Hf Hw]|Hout].
    - destruct (indexed_lookup_in _ _ _ (f, w) Hcost) as (v & Hv & ->).
      { apply elem_of_cross. rewrite !elem_of_range. auto. }
      rewrite cost_func_entry in Hv. destruct (entry costs f w); congruence.
    - eapply indexed_lookup_notin; [exact Hcost|].
      rewrite elem_of_cross, !elem_of_range. assumption. }
  split; [apply Hlist; exact Hcap|]. split; [apply Hlist; exact Hdem|].
  split; [exact Hc|].
  intros f w Hf Hw. destruct (build_Ok_inv _ _ _ _ _ Hbuild) as [_ HB].
  destruct (built_costs _ _ _ _ HB f w Hf Hw) as [_ ->]. eauto.
Qed.

Lemma parameters_hold_the_data_witness :
  (forall f, capacity hardcoded_model !! f = capacities !! f)
  /\ (forall w, demand hardcoded_model !! w = demands !! w)
  /\ (forall f w,
        cost hardcoded_model !! (f, w)
        = if decide ((f < nF capacities)%nat /\ (w < nW demands)%nat)
          then entry surplus_costs f w else None)
  /\ (forall f w, (f < nF capacities)%nat -> (w < nW demands)%nat ->
                  is_Some (cost hardcoded_model !! (f, w))).
Proof.
  apply (parameters_hold_the_data capacities demands surplus_costs build_trace
           hardcoded_model).
  vm_compute. reflexivity.
Defined.

Lemma is_Some_if_decide {A} (P : Prop) `{Decision P} (x : A) :
  is_Some (if decide P then Some x else None) <-> P.
Proof.
  destruct (decide P) as [HP|HP]; split; intros Hyp; try assumption; eauto.
  - destruct Hyp as [v Hv]. discriminate.
  - contradiction.
Qed.

(** X9: the components are indexed by the sets and by nothing else: there
    is a variable X[f,w] exactly for f < nF and w < nW, a constraint
    CapacityCons[f] exactly for f < nF, a constraint DemandCons[w] exactly
    for w < nW; before the solve no variable has a value and the dual
    suffix is empty. *)
Theorem components_follow_the_index_sets capacities demands costs tr model :
  build capacities demands costs = (tr, Ok model) ->
  facilities model = range (nF capacities)
  /\ warehouses model = range (nW demands)
  /\ (forall f w, is_Some (var_value (X model) !! (f, w))
                  <-> (f < nF capacities)%nat /\ (w < nW demands)%nat)
  /\ (forall f w v, var_value (X model) !! (f, w) = Some v -> v = None)
  /\ (forall f, is_Some (CapacityCons model !! f) <-> (f < nF capacities)%nat)
  /\ (forall w, is_Some (DemandCons model !! w) <-> (w < nW demands)%nat)
  /\ dual model = ∅.
Proof.
  intros Hbuild. destruct (build_Ok_inv _ _ _ _ _ Hbuild) as [_ HB].
  split; [apply (built_facilities _ _ _ _ HB)|].
  split; [apply (built_warehouses _ _ _ _ HB)|].
  split; [|split; [|split; [|split; [|apply (built_dual _ _ _ _ HB)]]]].
  - intros f w. rewrite (built_X _ _ _ _ HB). apply is_Some_if_decide.
  - intros f w v. rewrite (built_X _ _ _ _ HB).
    destruct (decide _); congruence.
  - intros f. rewrite (built_CapacityCons _ _ _ _ HB). apply is_Some_if_decide.
  - intros w. rewrite (built_DemandCons _ _ _ _ HB). apply is_Some_if_decide.
Qed.

Lemma components_follow_the_index_sets_witness :
  facilities hardcoded_model = range (nF capacities)
  /\ warehouses hardcoded_model = range (nW demands)
  /\ (forall f w, is_Some (var_value (X hardcoded_model) !! (f, w))
                  <-> (f < nF capacities)%nat /\ (w < nW demands)%nat)
  /\ (forall f w v, var_value (X hardcoded_model) !! (f, w) = Some v -> v = None)
  /\ (forall f, is_Some (CapacityCons hardcoded_model !! f) <-> (f < nF capacities)%nat)
  /\ (forall w, is_Some (DemandCons hardcoded_model !! w) <-> (w < nW demands)%nat)
  /\ dual hardcoded_model = ∅.
Proof.
  apply (components_follow_the_index_sets capacities demands costs build_trace
           hardcoded_model).
  vm_compute. reflexivity.
Defined.

(** X10: the script reads the cost matrix only at the pairs (f,w) with
    f < nF and w < nW: two matrices with the same entries there give the
    same model and the same run, rows and columns in surplus included. *)
Theorem only_the_used_costs_matter capacities demands costs1 costs2 solve :
  (forall f w, (f < nF capacities)%nat -> (w < nW demands)%nat ->
               entry costs1 f w = entry costs2 f w) ->
  build capacities demands costs1 = build capacities demands costs2
  /\ script capacities demands costs1 solve = script capacities demands costs2 solve.
Proof.
  intros Hsame.
  assert (Hbuild : build capacities demands costs1 = build capacities demands costs2).
  { unfold build. cbv zeta.
    cbn [facilities warehouses set_facilities set_warehouses new_model].
    unfold Param at 1 5.
    rewrite (indexed_ext _ _
               (fun '(f, w) =>
                  cost_func costs2
                    (set_warehouses (set_facilities new_model (range (nF capacities)))
                       (range (nW demands))) f w)); [reflexivity|].
    intros [f w] Hin. apply elem_of_cross in Hin as [Hf Hw].
    apply elem_of_range in Hf, Hw. rewrite !cost_func_entry, (Hsame f w Hf Hw).
    reflexivity. }
  split; [exact Hbuild|]. unfold script. rewrite Hbuild. reflexivity.
Qed.

Lemma only_the_used_costs_matter_witness :
  build capacities demands costs = build capacities demands surplus_costs
  /\ script capacities demands costs reference_solver
     = script capacities demands surplus_costs reference_solver.
Proof.
  apply (only_the_used_costs_matter capacities demands costs surplus_costs
           reference_solver).
  intros f w Hf Hw.
  destruct f as [|[|[|f]]]; [| | |vm_compute in Hf; lia];
    (destruct w as [|[|w]]; [| |vm_compute in Hw; lia]); reflexivity.
Defined.

(** ** Runs on an incomplete answer of the solver *)

Lemma snd_bind {A B} (r : Run A) (k : A -> Run B) :
  snd (Run.bind r k)
  = match snd r with
    | Ok a => snd (k a)
    | Raise e => Raise e
    end.
Proof. destruct r as [t [a|e]]; cbn; [destruct (k a)|]; reflexivity. Qed.

Lemma for_each_snd_cases {A} (l : list A) (body : A -> Run unit) e :
  (forall a, a ∈ l -> snd (body a) = Ok tt \/ snd (body a) = Raise e) ->
  snd (Run.for_each l body) = Ok tt \/ snd (Run.for_each l body) = Raise e.
Proof.
  induction l as [|a rest IH]; intros Hall; [left; reflexivity|].
  cbn [Run.for_each]. rewrite snd_bind.
  destruct (Hall a) as [-> | ->]; [left| |right; reflexivity].
  apply IH. intros b Hb. apply Hall. right. assumption.
Qed.

(** A loop whose body can only fail with [e] and fails at some item ends
    with [e]. *)
Lemma for_each_raise {A} (l : list A) (body : A -> Run unit) e a :
  (forall b, b ∈ l -> snd (body b) = Ok tt \/ snd (body b) = Raise e) ->
  a ∈ l -> snd (body a) = Raise e ->
  snd (Run.for_each l body) = Raise e.
Proof.
  induction l as [|b rest IH]; intros Hall Hin Ha; [inversion Hin|].
  cbn [Run.for_each]. rewrite snd_bind.
  destruct (Hall b) as [Hb|Hb]; [left| |]; rewrite Hb; [|reflexivity].
  apply elem_of_cons in Hin as [->|Hin]; [congruence|].
  apply IH; [|assumption|assumption]. intros c Hc. apply Hall. right. assumption.
Qed.

Section Incomplete.
Variables (capacities demands : list Q) (costs : list (list Q)).
Variable model : ConcreteModel.
Hypothesis HB : Built capacities demands costs model.
Variable results : SolverResults.

Lemma shipment_body_snd f w :
  (f < nF capacities)%nat -> (w < nW demands)%nat ->
  snd (Run.bind (Run.lift (X_value (load model results) f w))
         (fun v => if py_ne_zero v
                   then Run.bind (Run.lift (format_d v))
                          (fun units => Run.emit (PrintTransport units f w))
                   else Run.ret tt))
  = match variable_values results !! (f, w) with
    | Some _ => Ok tt
    | None => Raise TypeError
    end.
Proof.
  intros Hf Hw. rewrite (loaded_X_value _ _ _ _ HB) by assumption.
  rewrite bind_lift_Ok. destruct (variable_values results !! (f, w)) as [q|]; cbn.
  - destruct (Qeq_bool q 0); reflexivity.
  - reflexivity.
Qed.

Lemma print_shipments_TypeError f w :
  (f < nF capacities)%nat -> (w < nW demands)%nat ->
  variable_values results !! (f, w) = None ->
  snd (print_shipments (load model results)) = Raise TypeError.
Proof.
  intros Hf Hw Hnone. unfold print_shipments.
  change (facilities (load model results)) with (facilities model).
  change (warehouses (load model results)) with (warehouses model).
  rewrite (built_facilities _ _ _ _ HB), (built_warehouses _ _ _ _ HB).
  assert (Hinner : forall f' w', (f' < nF capacities)%nat -> w' ∈ range (nW demands) ->
             snd (Run.bind (Run.lift (X_value (load model results) f' w'))
                    (fun v => if py_ne_zero v
                              then Run.bind (Run.lift (format_d v))
                                     (fun units => Run.emit (PrintTransport units f' w'))
                              else Run.ret tt)) = Ok tt
             \/ snd (Run.bind (Run.lift (X_value (load model results) f' w'))
                       (fun v => if py_ne_zero v
                                 then Run.bind (Run.lift (format_d v))
                                        (fun units => Run.emit (PrintTransport units f' w'))
                                 else Run.ret tt)) = Raise TypeError).
  { intros f' w' Hf' Hw'. apply elem_of_range in Hw'.
    rewrite (shipment_body_snd f' w' Hf' Hw').
    destruct (variable_values results !! (f', w')); auto. }
  apply (for_each_raise _ _ TypeError f).
  - intros f' Hf'. apply elem_of_range in Hf'.
    apply for_each_snd_cases. intros w' Hw'. apply Hinner; assumption.
  - apply elem_of_range. assumption.
  - apply (for_each_raise _ _ TypeError w).
    + intros w' Hw'. apply Hinner; assumption.
    + apply elem_of_range. assumption.
    + rewrite (shipment_body_snd f w Hf Hw), Hnone. reflexivity.
Qed.

Lemma print_shipments_only m :
  Forall (fun e => exists u f w, e = PrintTransport u f w) (fst (print_shipments m)).
Proof.
  unfold print_shipments. apply for_each_fst_Forall. intros f.
  apply for_each_fst_Forall. intros w.
  apply bind_fst_Forall; [apply lift_fst_Forall|]. intros v.
  destruct (py_ne_zero v); [|constructor].
  apply bind_fst_Forall; [apply lift_fst_Forall|]. intros u.
  apply emit_fst_Forall. eauto.
Qed.

Lemma print_duals_KeyError f :
  (f < nF capacities)%nat ->
  dual_values results !! CapacityCons_at f = None ->
  snd (print_duals (load model results)) = Raise KeyError.
Proof.
  intros Hf Hnone. unfold print_duals.
  change (facilities (load model results)) with (facilities model).
  change (CapacityCons (load model results)) with (CapacityCons model).
  change (dual (load model results)) with (dual_values results).
  rewrite (built_facilities _ _ _ _ HB).
  assert (Hbody : forall f', (f' < nF capacities)%nat ->
             snd (Run.bind (Run.lift (getitem (CapacityCons model) f'))
                    (fun _ => Run.bind
                                (Run.lift (getitem (dual_values results) (CapacityCons_at f')))
                                (fun d => Run.emit (PrintDual (CapacityCons_at f') d))))
             = match dual_values results !! CapacityCons_at f' with
               | Some _ => Ok tt
               | None => Raise KeyError
               end).
  { intros f' Hf'. unfold getitem.
    rewrite (built_CapacityCons _ _ _ _ HB), decide_True by assumption.
    rewrite bind_lift_Ok. destruct (dual_values results !! CapacityCons_at f'); reflexivity. }
  apply (for_each_raise _ _ KeyError f).
  - intros f' Hf'. apply elem_of_range in Hf'. rewrite (Hbody f' Hf').
    destruct (dual_values results !! CapacityCons_at f'); auto.
  - apply elem_of_range. assumption.
  - rewrite (Hbody f Hf), Hnone. reflexivity.
Qed.
End Incomplete.

(** X11: with at least two warehouses, when the solver leaves a variable
    without a value, the loop over the shipments takes None for nonzero
    and fails in '%d': the script ends with TypeError, and neither a dual
    nor the objective value is printed. *)
Theorem missing_value_is_TypeError capacities demands costs solve tr model results f w :
  build capacities demands costs = (tr, Ok model) ->
  solve model = Ok results ->
  (1 < nW demands)%nat ->
  (f < nF capacities)%nat -> (w < nW demands)%nat ->
  variable_values results !! (f, w) = None ->
  snd (script capacities demands costs solve) = Raise TypeError
  /\ Forall (fun e => (forall c d, e <> PrintDual c d) /\ (forall v, e <> PrintObjective v))
            (fst (script capacities demands costs solve)).
Proof.
  intros Hbuild Hsolve HnW Hf Hw Hnone.
  destruct (build_Ok_inv _ _ _ _ _ Hbuild) as [_ HB].
  assert (HnF : (0 < nF capacities)%nat) by lia.
  rewrite (script_run _ _ _ _ _ _ _ Hbuild Hsolve). cbn [fst snd].
  assert (Hpp : post_processing (load model results)
                = (PrintValue (variable_values results !! (0, 1)%nat) :: PrintBlank
                     :: fst (print_shipments (load model results)),
                   Raise TypeError)).
  { unfold post_processing.
    rewrite (loaded_X_value _ _ _ _ HB) by assumption.
    rewrite bind_lift_Ok. apply bind_emit_eq. apply bind_emit_eq.
    apply bind_Raise_l. apply (print_shipments_TypeError _ _ _ _ HB results f w); assumption. }
  rewrite Hpp. cbn [fst snd]. split; [reflexivity|].
  apply Forall_app. split.
  { repeat constructor; discriminate. }
  apply Forall_app. split.
  { repeat constructor; discriminate. }
  repeat (constructor; [split; discriminate|]).
  eapply Forall_impl; [apply print_shipments_only|].
  intros e (u & f' & w' & ->). split; discriminate.
Qed.

Lemma missing_value_is_TypeError_witness :
  snd (script capacities demands costs partial_solver) = Raise TypeError
  /\ Forall (fun e => (forall c d, e <> PrintDual c d) /\ (forall v, e <> PrintObjective v))
            (fst (script capacities demands costs partial_solver)).
Proof.
  apply (missing_value_is_TypeError capacities demands costs partial_solver
           build_trace hardcoded_model partial_results 1 0).
  - vm_compute. reflexivity.
  - reflexivity.
  - vm_compute. lia.
  - vm_compute. lia.
  - vm_compute. lia.
  - vm_compute. reflexivity.
Defined.

(** X12: with at least two warehouses, when every variable has a value
    but a capacity constraint has no dual, the shipments are printed, the
    loop over the duals fails at the missing key, and the script ends with
    KeyError without printing the objective value. *)
Theorem missing_dual_is_KeyError capacities demands costs solve tr model results f :
  build capacities demands costs = (tr, Ok model) ->
  solve model = Ok results ->
  (1 < nW demands)%nat ->
  all_values results (nF capacities) (nW demands) ->
  (f < nF capacities)%nat ->
  dual_values results !! CapacityCons_at f = None ->
  snd (script capacities demands costs solve) = Raise KeyError
  /\ (exists duals,
        fst (script capacities demands costs solve)
        = build_trace
            ++ [SolverCall; PrintBlank; PrintStatus (status results);
                PrintTermination (termination_condition results)]
            ++ [PrintValue (Some (X_of results 0 1)); PrintBlank]
            ++ shipment_lines (X_of results) (nF capacities) (nW demands)
            ++ [PrintBlank] ++ duals
        /\ Forall (fun e => exists f' d, e = PrintDual (CapacityCons_at f') d) duals).
Proof.
  intros Hbuild Hsolve HnW Hval Hf Hnone.
  destruct (build_Ok_inv _ _ _ _ _ Hbuild) as [_ HB].
  assert (HnF : (0 < nF capacities)%nat) by lia.
  rewrite (script_run _ _ _ _ _ _ _ Hbuild Hsolve). cbn [fst snd].
  assert (Hpp : post_processing (load model results)
                = ([PrintValue (Some (X_of results 0 1)); PrintBlank]
                     ++ shipment_lines (X_of results) (nF capacities) (nW demands)
                     ++ [PrintBlank] ++ fst (print_duals (load model results)),
                   Raise KeyError)).
  { unfold post_processing.
    rewrite (loaded_X_value _ _ _ _ HB) by assumption.
    rewrite (all_values_X_of capacities demands results 0 1 Hval HnF HnW).
    rewrite bind_lift_Ok. apply bind_emit_eq. apply bind_emit_eq.
    rewrite (print_shipments_Ok _ _ _ _ HB) by assumption.
    rewrite bind_Ok, bind_emit. cbn [fst snd].
    rewrite (bind_Raise_l _ _ KeyError)
      by (apply (print_duals_KeyError _ _ _ _ HB results f); assumption).
    reflexivity. }
  rewrite Hpp. cbn [fst snd]. split; [reflexivity|].
  eexists. split; [reflexivity|]. apply print_duals_only.
Qed.

Lemma missing_dual_is_KeyError_witness :
  snd (script capacities demands costs one_dual_solver) = Raise KeyError
  /\ (exists duals,
        fst (script capacities demands costs one_dual_solver)
        = build_trace
            ++ [SolverCall; PrintBlank; PrintStatus (status one_dual_results);
                PrintTermination (termination_condition one_dual_results)]
            ++ [PrintValue (Some (X_of one_dual_results 0 1)); PrintBlank]
            ++ shipment_lines (X_of one_dual_results) (nF capacities) (nW demands)
            ++ [PrintBlank] ++ duals
        /\ Forall (fun e => exists f' d, e = PrintDual (CapacityCons_at f') d) duals).
Proof.
  apply (missing_dual_is_KeyError capacities demands costs one_dual_solver
           build_trace hardcoded_model one_dual_results 1).
  - vm_compute. reflexivity.
  - reflexivity.
  - vm_compute. lia.
  - exact reference_all_values.
  - vm_compute. lia.
  - vm_compute. reflexivity.
Defined.

(** ** The call of the solver *)

Lemma filter_none {A} (p : A -> bool) (l : list A) :
  Forall (fun a => p a = false) l -> List.filter p l = [].
Proof.
  induction 1 as [|a l Ha _ IH]; [reflexivity|]. cbn. rewrite Ha. assumption.
Qed.

Lemma build_no_call capacities demands costs :
  Forall (fun e => is_SolverCall e = false) (fst (build capacities demands costs)).
Proof.
  unfold build. cbv zeta.
  repeat (apply bind_fst_Forall;
          [first [apply emit_fst_Forall; reflexivity | apply lift_fst_Forall]|intros ?]).
  constructor.
Qed.

Lemma post_processing_no_call m :
  Forall (fun e => is_SolverCall e = false) (fst (post_processing m)).
Proof.
  unfold post_processing.
  apply bind_fst_Forall; [apply lift_fst_Forall|]. intros v.
  apply bind_fst_Forall; [apply emit_fst_Forall; reflexivity|]. intros _.
  apply bind_fst_Forall; [apply emit_fst_Forall; reflexivity|]. intros _.
  apply bind_fst_Forall.
  { eapply Forall_impl; [apply print_shipments_only|].
    intros e (u & f & w & ->). reflexivity. }
  intros _. apply bind_fst_Forall; [apply emit_fst_Forall; reflexivity|]. intros _.
  apply bind_fst_Forall.
  { eapply Forall_impl; [apply print_duals_only|].
    intros e (f & d & ->). reflexivity. }
  intros _. apply bind_fst_Forall; [apply lift_fst_Forall|]. intros obj.
  apply emit_fst_Forall. reflexivity.
Qed.

(** X13: the solver is called once when the model is built and never when
    building it fails; no run calls it twice. *)
Theorem solver_is_called_once capacities demands costs solve :
  length (List.filter is_SolverCall (fst (script capacities demands costs solve)))
  = match snd (build capacities demands costs) with
    | Ok _ => 1%nat
    | Raise _ => 0%nat
    end.
Proof.
  unfold script.
  assert (Hb := build_no_call capacities demands costs).
  destruct (build capacities demands costs) as [tr [model|e]]; cbn [fst snd] in *.
  - rewrite bind_Ok, bind_emit. cbn [fst].
    rewrite List.filter_app, (filter_none _ tr Hb). cbn [app List.filter is_SolverCall].
    rewrite filter_none; [reflexivity|].
    apply bind_fst_Forall; [apply lift_fst_Forall|]. intros results.
    repeat (apply bind_fst_Forall; [apply emit_fst_Forall; reflexivity|intros _]).
    apply post_processing_no_call.
  - unfold Run.bind. cbn [fst]. rewrite (filter_none _ tr Hb). reflexivity.
Qed.

(** ** Shipments of less than a unit *)

Lemma truncate_small q : -1 < q -> q < 1 -> truncate q = 0%Z.
Proof.
  destruct q as [n d]. unfold truncate, Qlt. cbn. intros Hlo Hhi.
  destruct (Z_le_gt_dec 0 n) as [Hn|Hn].
  - apply Z.quot_small. lia.
  - rewrite <- (Z.opp_involutive n), Z.quot_opp_l by lia.
    rewrite Z.quot_small; lia.
Qed.

(** X14: in a run with at least two warehouses where the solver gave every
    variable a value, a shipment that is not zero but smaller than one
    unit gets its line all the same, and the line says 0 units. *)
Theorem small_shipment_prints_zero_units
        capacities demands costs solve tr model results f w :
  build capacities demands costs = (tr, Ok model) ->
  solve model = Ok results ->
  (1 < nW demands)%nat ->
  all_values results (nF capacities) (nW demands) ->
  (f < nF capacities)%nat -> (w < nW demands)%nat ->
  ~ X_of results f w == 0 -> -1 < X_of results f w -> X_of results f w < 1 ->
  In (PrintTransport 0 f w) (fst (script capacities demands costs solve)).
Proof.
  intros Hbuild Hsolve HnW Hval Hf Hw Hnz Hlo Hhi.
  rewrite (script_run _ _ _ _ _ _ _ Hbuild Hsolve). cbn [fst].
  destruct (post_processing_shipments _ _ _ _ _ _ Hbuild HnW Hval) as (tl & -> & _).
  do 3 (apply in_or_app; right). apply in_or_app. left.
  apply in_shipment_lines. exists f, w.
  rewrite (truncate_small _ Hlo Hhi). auto.
Qed.

Lemma small_shipment_prints_zero_units_witness :
  In (PrintTransport 0 0 1) (fst (script capacities demands costs fractional_solver)).
Proof.
  apply (small_shipment_prints_zero_units capacities demands costs fractional_solver
           build_trace hardcoded_model fractional_results 0 1).
  - vm_compute. reflexivity.
  - reflexivity.
  - vm_compute. lia.
  - intros f w Hf Hw.
    destruct f as [|[|[|f]]]; [| | |vm_compute in Hf; lia];
      (destruct w as [|[|w]]; [| |vm_compute in Hw; lia]); vm_compute; eauto.
  - vm_compute. lia.
  - vm_compute. lia.
  - vm_compute. discriminate.
  - vm_compute. reflexivity.
  - vm_compute. reflexivity.
Defined.

(** ** When a feasible plan exists *)

Lemma sigma_ext n g h :
  (forall i, (i < n)%nat -> g i == h i) -> sigma n g == sigma n h.
Proof.
  induction n as [|n IH]; intros Hgh; cbn [sigma]; [reflexivity|].
  rewrite IH, (Hgh n) by (intros; try apply Hgh; lia). reflexivity.
Qed.

Lemma sigma_scale n a g : sigma n (fun i => a * g i) == a * sigma n g.
Proof.
  induction n as [|n IH]; cbn [sigma]; [ring|]. rewrite IH. ring.
Qed.

Lemma sigma_zero n : sigma n (fun _ => 0) == 0.
Proof. induction n as [|n IH]; cbn [sigma]; [reflexivity|]. rewrite IH. ring. Qed.

Lemma nth_nonneg (l : list Q) i : Forall (Qle 0) l -> 0 <= nth i l 0.
Proof.
  intros Hall. revert i. induction Hall as [|a l Ha _ IH]; intros [|i]; cbn [nth];
    try apply Qle_refl; [assumption|apply IH].
Qed.

Lemma total_nonneg (l : list Q) : Forall (Qle 0) l -> 0 <= total l.
Proof.
  intros Hall. rewrite total_sigma. apply sigma_nonneg. intros i _.
  apply nth_nonneg. assumption.
Qed.

Lemma nth_le_total (l : list Q) i : Forall (Qle 0) l -> nth i l 0 <= total l.
Proof.
  intros Hall. destruct (decide (i < length l)%nat) as [Hi|Hi].
  - rewrite total_sigma.
    apply (sigma_term_le (length l) (fun j => nth j l 0)); [|assumption].
    intros j _. apply nth_nonneg. assumption.
  - rewrite nth_overflow by lia. apply total_nonneg. assumption.
Qed.

Lemma proportional_plan_feasible capacities demands costs model :
  Built capacities demands costs model ->
  Forall (Qle 0) capacities -> Forall (Qle 0) demands ->
  total demands <= total capacities ->
  feasible model (proportional_plan capacities demands) = true.
Proof.
  intros HB Hcap Hdem Hle. apply (feasible_iff _ _ _ _ HB).
  assert (HC := total_nonneg _ Hcap).
  unfold proportional_plan.
  destruct (Qeq_bool (total capacities) 0) eqn:Hz.
  - apply Qeq_bool_iff in Hz. split; [|split].
    + intros f w _ _. apply Qle_refl.
    + intros f _. rewrite sigma_zero. apply nth_nonneg. assumption.
    + intros w _. rewrite sigma_zero.
      assert (Hw := nth_le_total demands w Hdem). lra.
  - assert (Hpos : 0 < total capacities).
    { apply Qeq_bool_neq in Hz. destruct (Qlt_le_dec 0 (total capacities)) as [|Hle0];
        [assumption|]. exfalso. apply Hz. lra. }
    assert (Hinv : 0 <= / total capacities) by (apply Qinv_le_0_compat; lra).
    split; [|split].
    + intros f w _ _. unfold Qdiv.
      apply Qmult_le_0_compat; [|assumption].
      apply Qmult_le_0_compat; apply nth_nonneg; assumption.
    + intros f _.
      rewrite (sigma_ext _ _ (fun w => nth f capacities 0 / total capacities
                                         * nth w demands 0))
        by (intros w _; field; lra).
      rewrite sigma_scale. unfold nW. rewrite <- total_sigma.
      assert (Hr : 0 <= nth f capacities 0 / total capacities).
      { unfold Qdiv. apply Qmult_le_0_compat; [apply nth_nonneg|]; assumption. }
      assert (Hd : 0 <= nth f capacities 0 / total capacities
                        * (total capacities - total demands))
        by (apply Qmult_le_0_compat; [assumption|lra]).
      assert (Heq : nth f capacities 0 / total capacities * total capacities
                    == nth f capacities 0) by (field; lra).
      lra.
    + intros w _.
      rewrite (sigma_ext _ _ (fun f => nth w demands 0 / total capacities
                                         * nth f capacities 0))
        by (intros f _; field; lra).
      rewrite sigma_scale. unfold nF. rewrite <- total_sigma.
      assert (Heq : nth w demands 0 / total capacities * total capacities
                    == nth w demands 0) by (field; lra).
      lra.
Qed.

(** X15: with no negative capacity and no negative demand, the built model
    has a feasible plan exactly when the demands sum to at most the
    capacities, and then the plan that splits every demand in proportion
    to the capacities is feasible. *)
Theorem feasible_iff_enough_capacity capacities demands costs tr model :
  build capacities demands costs = (tr, Ok model) ->
  Forall (Qle 0) capacities -> Forall (Qle 0) demands ->
  ((exists Xa, feasible model Xa = true) <-> total demands <= total capacities)
  /\ (total demands <= total capacities ->
      feasible model (proportional_plan capacities demands) = true).
Proof.
  intros Hbuild Hcap Hdem. destruct (build_Ok_inv _ _ _ _ _ Hbuild) as [_ HB].
  split; [split|].
  - intros [Xa Hfeas]. destruct (feasible_totals _ _ _ _ _ HB Hfeas) as [Hd Hc]. lra.
  - intros Hle. exists (proportional_plan capacities demands).
    apply (proportional_plan_feasible _ _ _ _ HB); assumption.
  - apply (proportional_plan_feasible _ _ _ _ HB); assumption.
Qed.

Lemma feasible_iff_enough_capacity_witness :
  ((exists Xa, feasible hardcoded_model Xa = true) <-> total demands <= total capacities)
  /\ (total demands <= total capacities ->
      feasible hardcoded_model (proportional_plan capacities demands) = true).
Proof.
  apply (feasible_iff_enough_capacity capacities demands costs build_trace hardcoded_model).
  - vm_compute. reflexivity.
  - repeat constructor; vm_compute; discriminate.
  - repeat constructor; vm_compute; discriminate.
Defined.

(** ** Dual prices as a bound *)

Lemma Qmult_le_nonneg_l a x y : 0 <= a -> x <= y -> a * x <= a * y.
Proof.
  intros Ha Hxy.
  assert (H0 : 0 <= a * (y - x)) by (apply Qmult_le_0_compat; lra).
  assert (H1 : a * (y - x) == a * y - a * x) by ring. lra.
Qed.

(** X16: prices u[w] >= 0 on the demand constraints and v[f] >= 0 on the
    capacity constraints with u[w] - v[f] <= cost[f][w] bound the cost of
    every feasible plan from below by
    sum_w u[w]*demands[w] - sum_f v[f]*capacities[f]. *)
Theorem dual_prices_bound_the_cost capacities demands costs tr model
        (u v : nat -> Q) (Xa : nat -> nat -> Q) :
  build capacities demands costs = (tr, Ok model) ->
  (forall w, (w < nW demands)%nat -> 0 <= u w) ->
  (forall f, (f < nF capacities)%nat -> 0 <= v f) ->
  (forall f w, (f < nF capacities)%nat -> (w < nW demands)%nat ->
               u w - v f <= cost_at costs f w) ->
  feasible model Xa = true ->
  sigma (nW demands) (fun w => u w * nth w demands 0)
  - sigma (nF capacities) (fun f => v f * nth f capacities 0)
  <= objective_value model Xa.
Proof.
  intros Hbuild Hu Hv Huv Hfeas. destruct (build_Ok_inv _ _ _ _ _ Hbuild) as [_ HB].
  rewrite (objective_value_built _ _ _ _ _ HB). unfold total_cost.
  apply (feasible_iff _ _ _ _ HB) in Hfeas as (Hpos & Hcap & Hdem).
  set (n := nF capacities) in *. set (m := nW demands) in *.
  set (A := sigma n (fun f => sigma m (fun w => u w * Xa f w))).
  set (B := sigma n (fun f => sigma m (fun w => v f * Xa f w))).
  assert (H1 : sigma n (fun f => sigma m (fun w => (u w - v f) * Xa f w))
               <= sigma n (fun f => sigma m (fun w => cost_at costs f w * Xa f w))).
  { apply sigma_le. intros f Hf. apply sigma_le. intros w Hw.
    apply Qmult_le_compat_r; [apply Huv|apply Hpos]; assumption. }
  assert (H2 : sigma n (fun f => sigma m (fun w => (u w - v f) * Xa f w)) + B == A).
  { unfold A, B. rewrite <- sigma_plus. apply sigma_ext. intros f _.
    rewrite <- sigma_plus. apply sigma_ext. intros w _. ring. }
  assert (H3 : sigma m (fun w => u w * nth w demands 0) <= A).
  { unfold A. rewrite (sigma_swap n m (fun f w => u w * Xa f w)).
    apply sigma_le. intros w Hw. rewrite sigma_scale.
    apply Qmult_le_nonneg_l; [apply Hu|apply Hdem]; assumption. }
  assert (H4 : B <= sigma n (fun f => v f * nth f capacities 0)).
  { unfold B. apply sigma_le. intros f Hf. rewrite sigma_scale.
    apply Qmult_le_nonneg_l; [apply Hv|apply Hcap]; assumption. }
  lra.
Qed.

Lemma dual_prices_bound_the_cost_witness :
  feasible hardcoded_model stated_flow = true
  /\ sigma (nW demands) (fun w => dual_of reference_results (DemandCons_at w) * nth w demands 0)
  - sigma (nF capacities)
      (fun f => - dual_of reference_results (CapacityCons_at f) * nth f capacities 0)
     <= objective_value hardcoded_model stated_flow.
Proof.
  split; [vm_compute; reflexivity|].
  apply (dual_prices_bound_the_cost capacities demands costs build_trace hardcoded_model
           (fun w => dual_of reference_results (DemandCons_at w))
           (fun f => - dual_of reference_results (CapacityCons_at f))
           stated_flow).
  - vm_compute. reflexivity.
  - intros w Hw. destruct w as [|[|w]]; [| |vm_compute in Hw; lia];
      vm_compute; discriminate.
  - intros f Hf. destruct f as [|[|[|f]]]; [| | |vm_compute in Hf; lia];
      vm_compute; discriminate.
  - intros f w Hf Hw.
    destruct f as [|[|[|f]]]; [| | |vm_compute in Hf; lia];
      (destruct w as [|[|w]]; [| |vm_compute in Hw; lia]); vm_compute; discriminate.
  - vm_compute. reflexivity.
Defined.
